(** * The story-game backend (server.js): sanitizer and request handlers

    A shallow embedding of the moderation filter ([maskWord], [sanitizeText]),
    of the drama tables ([mapDramaToTemp], [dramaInstructions]) and of the
    handlers of [/api/continue] and [/api/storyboard/share], followed by the
    properties established about them.

    JavaScript strings are sequences of UTF-16 code units, numbers are
    binary64 floats, and an exception is an explicit [Throw] result. *)

From Stdlib Require Import String Ascii List NArith ZArith Bool Lia DecimalString.
From Stdlib Require Import Floats.PrimFloat Floats.FloatOps Floats.SpecFloat.
Import ListNotations.

Set Implicit Arguments.
Set Warnings "-inexact-float,-register-all".
Local Open Scope string_scope.
Local Open Scope N_scope.
Local Open Scope list_scope.

(** ** Strings *)

(** A string value: its UTF-16 code units. *)
Definition jsstring := list N.

(** The code units of an ASCII literal of the source. *)
Definition js (s : string) : jsstring := map N_of_ascii (list_ascii_of_string s).

Definition jsstring_eqb (a b : jsstring) : bool :=
  if list_eq_dec N.eq_dec a b then true else false.

Definition LF : jsstring := [10].
Definition asterisk : N := 42.

(** ** Regular expressions, as far as the source uses them

    Both expressions of the source carry the flags [gi] and none carries [u]:
    a pattern is a sequence of atoms, matched ignoring case. *)

Inductive atom :=
| WordBoundary            (* \b *)
| Char (c : N)            (* a pattern character *)
| Class (cs : list N).    (* [...] *)

(** IsWordChar: the basic word characters [A-Za-z0-9_]. *)
Definition is_word_char (c : N) : bool :=
  ((48 <=? c) && (c <=? 57)) || ((65 <=? c) && (c <=? 90)) ||
  (c =? 95) || ((97 <=? c) && (c <=? 122)).

(** IsWordChar at a position that may lie outside the string. *)
Definition is_word_at (c : option N) : bool :=
  match c with Some x => is_word_char x | None => false end.

(** Canonicalize under [i] without [u]: the upper-case code unit.  A code
    unit of 128 or more never canonicalizes to one below 128, so against the
    ASCII patterns of the source it is left as it is. *)
Definition canonicalize (c : N) : N :=
  if (97 <=? c) && (c <=? 122) then c - 32 else c.

Definition same_char (x c : N) : bool := canonicalize x =? canonicalize c.

(** Matching a pattern at one position: [prev] is the code unit before the
    position, [s] the input from the position on.  The result is the matched
    text and what follows it. *)
Fixpoint match_here (p : list atom) (prev : option N) (s : jsstring)
  : option (jsstring * jsstring) :=
  match p with
  | [] => Some ([], s)
  | WordBoundary :: p' =>
      if xorb (is_word_at prev) (is_word_at (hd_error s))
      then match_here p' prev s else None
  | Char c :: p' =>
      match s with
      | x :: s' =>
          if same_char x c
          then match match_here p' (Some x) s' with
               | Some (m, r) => Some (x :: m, r)
               | None => None
               end
          else None
      | [] => None
      end
  | Class cs :: p' =>
      match s with
      | x :: s' =>
          if existsb (same_char x) cs
          then match match_here p' (Some x) s' with
               | Some (m, r) => Some (x :: m, r)
               | None => None
               end
          else None
      | [] => None
      end
  end.

(** String.prototype.replace with a global expression and a replacer
    function: the matches are searched from left to right, each search
    resuming where the previous match ended (one code unit further after an
    empty match); [fuel] bounds the number of positions visited. *)
Fixpoint replace_from (fuel : nat) (p : list atom) (fn : jsstring -> jsstring)
    (prev : option N) (s : jsstring) : jsstring :=
  match fuel with
  | O => s
  | S k =>
      let advance :=
        match s with
        | [] => []
        | c :: s' => c :: replace_from k p fn (Some c) s'
        end in
      match match_here p prev s with
      | Some (x :: m, r) => fn (x :: m) ++ replace_from k p fn (Some (last m x)) r
      | Some ([], _) => fn [] ++ advance
      | None => advance
      end
  end.

Definition replace (s : jsstring) (p : list atom) (fn : jsstring -> jsstring) : jsstring :=
  replace_from (S (length s)) p fn None s.

(** ** Moderation (server-side sanitizer) *)

Definition BAD_WORDS : list jsstring :=
  map js [ "fuck"; "shit"; "bitch"; "bastard"; "asshole"; "dick"; "pussy"; "cunt"; "slut";
           "whore"; "faggot"; "retard"; "motherfucker"; "fucker"; "fucking" ].

(** /[aeiou]/gi *)
Definition VOWEL_RE : list atom := [Class (js "aeiou")].

(** [w.replace(VOWEL_RE, '*')] *)
Definition maskWord (w : jsstring) : jsstring :=
  replace w VOWEL_RE (fun _ => [asterisk]).

(** [new RegExp(`\\b${bw}\\b`, 'gi')]: the terms are plain letters, so the
    pattern text reads as a boundary, the term's characters, a boundary. *)
Definition word_re (bw : jsstring) : list atom :=
  WordBoundary :: map Char bw ++ [WordBoundary].

(** The loop of [sanitizeText] over a list of terms, on a string. *)
Definition sanitize_with (terms : list jsstring) (text : jsstring) : jsstring :=
  fold_left (fun out bw => replace out (word_re bw) (fun m => maskWord m)) terms text.

(** ** Values, exceptions and coercions *)

(** The values a JSON body can hold, and [undefined]. *)
Inductive value :=
| VUndefined
| VNull
| VBool (b : bool)
| VNum (n : float)
| VStr (s : jsstring)
| VArr (elems : list value)
| VObj (props : list (jsstring * value)).   (* own properties, one entry per key *)

Inductive error :=
| TypeError (what : jsstring)     (* raised by the engine *)
| SyntaxError                     (* raised by JSON.parse *)
| FetchError (message : jsstring) (* a rejected request or body read *)
| Error (message : jsstring).     (* [new Error(message)] *)

Inductive completion (A : Type) :=
| Normal (a : A)
| Throw (e : error).
Arguments Normal {A} a.
Arguments Throw {A} e.

Definition bind {A B} (c : completion A) (f : A -> completion B) : completion B :=
  match c with Normal a => f a | Throw e => Throw e end.

Declare Scope js_scope.
Delimit Scope js_scope with js.
Notation "x <- c ;; k" := (bind c (fun x => k))
  (at level 61, c at next level, right associativity) : js_scope.
Local Open Scope js_scope.

(** ToBoolean *)
Definition truthy (v : value) : bool :=
  match v with
  | VUndefined | VNull => false
  | VBool b => b
  | VNum n => negb (PrimFloat.is_nan n || PrimFloat.is_zero n)
  | VStr s => match s with [] => false | _ => true end
  | VArr _ | VObj _ => true
  end.

Definition nullish (v : value) : bool :=
  match v with VUndefined | VNull => true | _ => false end.

Fixpoint lookup (k : jsstring) (props : list (jsstring * value)) : option value :=
  match props with
  | [] => None
  | (k', v) :: rest => if jsstring_eqb k k' then Some v else lookup k rest
  end.

(** Decimal digits of a natural number. *)
Definition digits (n : N) : jsstring :=
  js (DecimalString.NilEmpty.string_of_uint (N.to_uint n)).

Inductive key :=
| Name (k : jsstring)
| Index (i : nat).

(** [v.k] and [v[i]] on a value that is neither null nor undefined.  The
    names the source reads (history, mood, output_text, content, text, ...)
    are not properties of the built-in prototypes, so a name that is not an
    own property reads as undefined. *)
Definition get_prop (v : value) (k : key) : value :=
  match v, k with
  | VObj props, Name n => match lookup n props with Some x => x | None => VUndefined end
  | VObj props, Index i =>
      match lookup (digits (N.of_nat i)) props with Some x => x | None => VUndefined end
  | VArr elems, Index i => nth i elems VUndefined
  | VStr s, Index i => match nth_error s i with Some c => VStr [c] | None => VUndefined end
  | _, _ => VUndefined
  end.

(** Property access: a TypeError on null and undefined. *)
Definition Get (v : value) (k : key) : completion value :=
  if nullish v then Throw (TypeError (js "Cannot read properties of undefined or null"))
  else Normal (get_prop v k).

(** Optional chaining [v?.k]. *)
Definition opt_get (v : value) (k : key) : value :=
  if nullish v then VUndefined else get_prop v k.

(** The integer a float denotes, when it is one of magnitude below 2^53. *)
Definition integer_value (x : float) : option Z :=
  match Prim2SF x with
  | S754_zero _ => Some 0%Z
  | S754_finite sign m e =>
      let mag :=
        if (0 <=? e)%Z then Some (Z.pos m * 2 ^ e)%Z
        else if (Z.pos m mod 2 ^ (- e) =? 0)%Z then Some (Z.pos m / 2 ^ (- e))%Z
        else None in
      match mag with
      | Some z => if (z <? 2 ^ 53)%Z then Some (if sign then - z else z)%Z else None
      | None => None
      end
  | _ => None
  end.

(** What the engine and the environment provide and the source only calls. *)
Record Host := {
  (** Number::toString on a finite number that is not an integer below 2^53 *)
  shortest_decimal : float -> jsstring;
  (** StringToNumber *)
  StringToNumber : jsstring -> float;
  (** JSON.parse; [None] when it throws a SyntaxError *)
  JSON_parse : jsstring -> option value;
  (** [e.message] of an error raised by the engine *)
  engine_message : error -> jsstring;
  (** process.env *)
  OPENAI_API_KEY : option jsstring;
  SUPABASE_URL : option jsstring;
  SUPABASE_SERVICE_ROLE : option jsstring
}.

Definition TypeError_not_function (what : string) : error :=
  TypeError (js what ++ js " is not a function").
Definition TypeError_not_iterable : error := TypeError (js "value is not iterable").
Definition TypeError_to_primitive : error :=
  TypeError (js "Cannot convert object to primitive value").

Section Coercions.
Variable host : Host.

(** Number::toString: the digits of an integer, the rest by the engine. *)
Definition Number_toString (x : float) : jsstring :=
  if PrimFloat.is_nan x then js "NaN"
  else if PrimFloat.is_zero x then js "0"
  else if PrimFloat.is_infinity x
       then (if PrimFloat.ltb x 0 then js "-Infinity" else js "Infinity")
  else match integer_value x with
       | Some z => (if (z <? 0)%Z then js "-" else []) ++ digits (Z.abs_N z)
       | None => shortest_decimal host x
       end.

(** ToString.  An array joins its elements with commas, null and undefined
    elements counting as empty; an object parsed from JSON is
    "[object Object]" unless it shadows [toString] with a property of its
    own, which it cannot call. *)
Fixpoint ToString (v : value) : completion jsstring :=
  match v with
  | VUndefined => Normal (js "undefined")
  | VNull => Normal (js "null")
  | VBool b => Normal (if b then js "true" else js "false")
  | VNum n => Normal (Number_toString n)
  | VStr s => Normal s
  | VArr elems =>
      (fix join (l : list value) : completion jsstring :=
         match l with
         | [] => Normal []
         | e :: l' =>
             a <- (if nullish e then Normal [] else ToString e) ;;
             match l' with
             | [] => Normal a
             | _ => b <- join l' ;; Normal (a ++ js "," ++ b)
             end
         end) elems
  | VObj props =>
      match lookup (js "toString") props with
      | Some _ => Throw TypeError_to_primitive
      | None => Normal (js "[object Object]")
      end
  end.

(** ToNumber.  Arrays and objects go through ToPrimitive, which ends at
    their string form. *)
Definition ToNumber (v : value) : completion float :=
  match v with
  | VUndefined => Normal PrimFloat.nan
  | VNull => Normal 0%float
  | VBool b => Normal (if b then 1%float else 0%float)
  | VNum n => Normal n
  | VStr s => Normal (StringToNumber host s)
  | VArr _ | VObj _ => s <- ToString v ;; Normal (StringToNumber host s)
  end.
End Coercions.

(** WhiteSpace and LineTerminator code units. *)
Definition is_white_space (c : N) : bool :=
  existsb (N.eqb c) [9; 10; 11; 12; 13; 32; 160; 5760; 8232; 8233; 8239; 8287; 12288; 65279]
  || ((8192 <=? c) && (c <=? 8202)).

Fixpoint trim_start (s : jsstring) : jsstring :=
  match s with
  | c :: s' => if is_white_space c then trim_start s' else s
  | [] => []
  end.

(** String.prototype.trim *)
Definition trim (s : jsstring) : jsstring := rev (trim_start (rev (trim_start s))).

(** The items a spread or an array pattern iterates over: the elements of an
    array, the code points of a string. *)
Fixpoint code_points (s : jsstring) : list value :=
  match s with
  | [] => []
  | c :: s' =>
      match s' with
      | d :: s'' =>
          if ((55296 <=? c) && (c <=? 56319)) && ((56320 <=? d) && (d <=? 57343))
          then VStr [c; d] :: code_points s''
          else VStr [c] :: code_points s'
      | [] => [VStr [c]]
      end
  end.

(** [sanitizeText(text)]: a falsy argument is handed back, a string goes
    through the loop, and any other value has no [replace] to call. *)
Definition sanitizeText (text : value) : completion value :=
  if negb (truthy text) then Normal text
  else match text with
       | VStr s => Normal (VStr (sanitize_with BAD_WORDS s))
       | _ => Throw (TypeError_not_function "out.replace")
       end.

Definition iterate (v : value) : completion (list value) :=
  match v with
  | VArr elems => Normal elems
  | VStr s => Normal (code_points s)
  | _ => Throw TypeError_not_iterable
  end.

(** ** Asynchronous code: programs that await requests *)

Inductive call :=
| Fetch (url method : jsstring) (headers : list (string * jsstring)) (body : option value).
(* [body] is the value handed to JSON.stringify *)

Record fetch_response := {
  status : N;
  text : completion jsstring   (* what [response.text()] settles to *)
}.

(** [response.ok] *)
Definition ok (r : fetch_response) : bool := (200 <=? status r) && (status r <=? 299).

Inductive answer :=
| Rejected (e : error)
| Responded (r : fetch_response).

Inductive prog (A : Type) :=
| Ret (a : A)
| Raise (e : error)
| Await (c : call) (k : answer -> prog A).
Arguments Ret {A} a.
Arguments Raise {A} e.
Arguments Await {A} c k.

Fixpoint pbind {A B} (m : prog A) (f : A -> prog B) : prog B :=
  match m with
  | Ret a => f a
  | Raise e => Raise e
  | Await c k => Await c (fun x => pbind (k x) f)
  end.

Fixpoint try_catch {A} (m : prog A) (handler : error -> prog A) : prog A :=
  match m with
  | Ret a => Ret a
  | Raise e => handler e
  | Await c k => Await c (fun x => try_catch (k x) handler)
  end.

Definition lift {A} (c : completion A) : prog A :=
  match c with Normal a => Ret a | Throw e => Raise e end.

Notation "x <~ m ;; k" := (pbind m (fun x => k))
  (at level 61, m at next level, right associativity) : js_scope.

(** Running a program against the outside world: the requests it made, in
    order, and how it ended. *)
Fixpoint run {A} (world : call -> answer) (m : prog A) : list call * completion A :=
  match m with
  | Ret a => ([], Normal a)
  | Raise e => ([], Throw e)
  | Await c k => let (cs, r) := run world (k (world c)) in (c :: cs, r)
  end.

(** The first request a program makes, when it makes one. *)
Definition first_call {A} (m : prog A) : option call :=
  match m with
  | Await c _ => Some c
  | _ => None
  end.

(** What a handler sends: [res.status(code).json(json)]. *)
Record reply := { code : N; json : value }.

Definition obj (props : list (string * value)) : value :=
  VObj (map (fun kv => (js (fst kv), snd kv)) props).
Definition str (s : string) : value := VStr (js s).
Definition prop (k : string) : key := Name (js k).

Fixpoint switch {A} (s : jsstring) (cases : list (string * A)) (default : A) : A :=
  match cases with
  | [] => default
  | (c, a) :: rest => if jsstring_eqb s (js c) then a else switch s rest default
  end.

(** A destructured property with its default. *)
Definition or_default (v d : value) : value :=
  match v with VUndefined => d | _ => v end.

Definition ellipsis : jsstring := [8230].

Definition FALLBACK : jsstring :=
  js "The narrator hesitates, then continues cautiously. (Fallback)".

Definition baseStyle : jsstring :=
  js "You are the NARRATOR of a text-adventure game." ++ LF ++
  LF ++
  js "STYLE:" ++ LF ++
  js "- Present tense." ++ LF ++
  js "- PG-13; no slurs or explicit sexual content." ++ LF ++
  js "- Never mention you are an AI. Never break the fourth wall." ++ LF ++
  js "- Always continue directly from the player's last turn.".

Section Handlers.
Variable host : Host.

(** *** GAME endpoint (mood + drama scale) *)

Definition mapDramaToTemp (drama : value) : completion float :=
  s <- ToString host drama ;;
  Normal (switch s
            [ ("1", 0.4); ("2", 0.55); ("3", 0.7); ("4", 0.85); ("5", 1.0) ]%float
            0.7%float).

Definition dramaInstructions (drama : value) : completion jsstring :=
  s <- ToString host drama ;;
  Normal (switch s
    [ ("1", js "Narration style: Very plain and simple. Short sentences. Minimal description.");
      ("2", js "Narration style: Simple narration with occasional description.");
      ("3", js "Narration style: Balanced detail. Moderate description, engaging but not theatrical.");
      ("4", js "Narration style: Dramatic with vivid imagery and suspense.");
      ("5", js "Narration style: Highly dramatic and theatrical. Rich detail and powerful emotions.") ]
    (js "Narration style: Balanced detail, engaging but not theatrical.")).

(** [mood && mood !== 'default'] *)
Definition mood_given (mood : value) : bool :=
  truthy mood &&
  match mood with VStr s => negb (jsstring_eqb s (js "default")) | _ => true end.

Definition styleMood (mood : value) : completion jsstring :=
  if mood_given mood
  then m <- ToString host mood ;;
       Normal (LF ++ LF ++ js "Mood/Genre: This is a " ++ m ++
               js " story. Match your narration to " ++ m ++
               js " conventions, tone, and atmosphere.")
  else Normal [].

(** The body of the [try] block up to the request: the payload. *)
Definition continue_payload (body : value) : completion value :=
  h <- Get body (prop "history") ;;
  u <- Get body (prop "userTurn") ;;
  m <- Get body (prop "mood") ;;
  d <- Get body (prop "drama") ;;
  let history := or_default h (VArr []) in
  let userTurn := or_default u (VStr []) in
  let mood := or_default m (str "default") in
  let drama := or_default d (VNum 3%float) in
  mood_clause <- styleMood mood ;;
  instructions <- dramaInstructions drama ;;
  let styleDrama := LF ++ LF ++ instructions in
  entries <- iterate history ;;
  let messages :=
    [ obj [ ("role", str "system"); ("content", VStr (baseStyle ++ mood_clause ++ styleDrama)) ] ]
    ++ entries ++
    [ obj [ ("role", str "user"); ("content", userTurn) ] ] in
  temperature <- mapDramaToTemp drama ;;
  Normal (obj [ ("model", str "gpt-4o-mini");
                ("input", VArr messages);
                ("max_output_tokens", VNum 220%float);
                ("temperature", VNum temperature) ]).

(** The inner [try]: the text read out of the response body, the initial
    text where nothing is read or an exception is swallowed. *)
Definition extract_text (raw : jsstring) (text : value) : value :=
  let attempt :=
    data <- match JSON_parse host raw with
            | Some d => Normal d
            | None => Throw SyntaxError
            end ;;
    output_text <- Get data (prop "output_text") ;;
    if truthy output_text then Normal output_text
    else
      output <- Get data (prop "output") ;;
      if truthy output
      then
        first <- Get output (Index 0) ;;
        if truthy (opt_get (opt_get (opt_get first (prop "content")) (Index 0)) (prop "text"))
        then content <- Get first (prop "content") ;;
             item <- Get content (Index 0) ;;
             Get item (prop "text")
        else Normal text
      else Normal text in
  match attempt with
  | Normal t => t
  | Throw _ => text
  end.

(** [text.trim()] *)
Definition call_trim (v : value) : completion jsstring :=
  match v with
  | VStr s => Normal (trim s)
  | _ => Throw (TypeError_not_function "text.trim")
  end.

(** [if (!text || text.trim() === '') text = "The narrator hesitates..."] *)
Definition or_fallback (text : value) : completion value :=
  if negb (truthy text) then Normal (VStr FALLBACK)
  else t <- call_trim text ;;
       Normal (if jsstring_eqb t [] then VStr FALLBACK else text).

Definition openai_call (payload : value) : call :=
  Fetch (js "https://api.openai.com/v1/responses") (js "POST")
    [ ("Authorization",
       js "Bearer " ++ match OPENAI_API_KEY host with
                       | Some (c :: k) => c :: k
                       | _ => []
                       end);
      ("Content-Type", js "application/json") ]
    (Some payload).

(** What the handler does once the request has settled. *)
Definition continue_settled (settled : answer) : prog reply :=
  match settled with
  | Rejected e => Raise e
  | Responded response =>
      raw <~ lift (text response) ;;
      if negb (ok response)
      then Ret {| code := 500;
                  json := obj [ ("error", VStr (js "OpenAI error: " ++ raw)) ] |}
      else
        let text := extract_text raw (VStr ellipsis) in
        text <~ lift (or_fallback text) ;;
        text <~ lift (sanitizeText text) ;;
        Ret {| code := 200; json := obj [ ("text", text) ] |}
  end.

(** The reply of the outer [catch]. *)
Definition server_fallback : reply :=
  {| code := 500;
     json := obj [ ("error", str "Server error"); ("text", str "(Server fallback)") ] |}.

(** [app.post('/api/continue', ...)] *)
Definition continue_handler (body : value) : prog reply :=
  try_catch
    (payload <~ lift (continue_payload body) ;;
     Await (openai_call payload) continue_settled)
    (fun _ => Ret server_fallback).

(** *** STORYBOARD (Supabase) *)

Definition configured (v : option jsstring) : option jsstring :=
  match v with Some (c :: s) => Some (c :: s) | _ => None end.

(** [e.message] *)
Definition message (e : error) : jsstring :=
  match e with
  | Error m | FetchError m => m
  | _ => engine_message host e
  end.

(** [async function sb(path, init)] *)
Definition sb (path method : jsstring) (body : option value) : prog value :=
  match configured (SUPABASE_URL host), configured (SUPABASE_SERVICE_ROLE host) with
  | Some base, Some role =>
      Await
        (Fetch (base ++ js "/rest/v1" ++ path) method
           [ ("apikey", role);
             ("Authorization", js "Bearer " ++ role);
             ("Content-Type", js "application/json");
             ("Prefer", js "return=representation") ]
           body)
        (fun settled =>
           match settled with
           | Rejected e => Raise e
           | Responded res =>
               if negb (ok res)
               then t <~ lift (text res) ;;
                    Raise (Error (js "[Supabase " ++ digits (status res) ++ js "] " ++ t))
               else t <~ lift (text res) ;;
                    match JSON_parse host t with
                    | Some v => Ret v
                    | None => Raise SyntaxError
                    end
           end)
  | _, _ =>
      Raise (Error (js "Supabase is not configured (SUPABASE_URL / SUPABASE_SERVICE_ROLE missing)."))
  end.

(** [a || b] on values *)
Definition or_else (a b : value) : value := if truthy a then a else b.

(** The object [sanitized] of the share handler. *)
Definition share_row (title mood drama content author : value) : completion value :=
  title' <- sanitizeText title ;;
  mood' <- sanitizeText (or_else mood (VStr [])) ;;
  n <- ToNumber host drama ;;
  content' <- sanitizeText content ;;
  author' <- sanitizeText (or_else author (str "Anon")) ;;
  Normal (obj [ ("title", title');
                ("mood", mood');
                ("drama", or_else (VNum n) (VNum 3%float));
                ("content", content');
                ("author", author') ]).

(** The body of the share handler's [try] block. *)
Definition share_body (body : value) : prog reply :=
  title <~ lift (Get body (prop "title")) ;;
  mood <~ lift (Get body (prop "mood")) ;;
  drama <~ lift (Get body (prop "drama")) ;;
  content <~ lift (Get body (prop "content")) ;;
  author <~ lift (Get body (prop "author")) ;;
  if negb (truthy title) || negb (truthy content)
  then Ret {| code := 400; json := obj [ ("error", str "Missing title or content") ] |}
  else
    sanitized <~ lift (share_row title mood drama content author) ;;
    rows <~ sb (js "/stories") (js "POST") (Some (VArr [sanitized])) ;;
    items <~ lift (iterate rows) ;;
    let story := hd VUndefined items in
    Ret {| code := 200; json := obj [ ("ok", VBool true); ("story", story) ] |}.

(** [app.post('/api/storyboard/share', ...)] *)
Definition share_handler (body : value) : prog reply :=
  try_catch (share_body body)
    (fun e => Ret {| code := 500; json := obj [ ("error", VStr (message e)) ] |}).
End Handlers.

(** ** The other endpoints *)

(** A count as a number. *)
Definition number_of_nat (n : nat) : float :=
  PrimFloat.of_uint63 (Uint63Axioms.of_Z (Z.of_nat n)).

(** [v.length] on a value that is neither null nor undefined. *)
Definition length_of (v : value) : value :=
  match v with
  | VArr elems => VNum (number_of_nat (length elems))
  | VStr s => VNum (number_of_nat (length s))
  | VObj props => match lookup (js "length") props with Some x => x | None => VUndefined end
  | _ => VUndefined
  end.

(** SameValueZero on numbers, the comparison of [Array.prototype.includes]. *)
Definition same_value_zero (x y : float) : bool :=
  PrimFloat.eqb x y || (PrimFloat.is_nan x && PrimFloat.is_nan y).

Definition includes (l : list float) (v : float) : bool := existsb (same_value_zero v) l.

Section Endpoints.
Variable host : Host.

(** ToPrimitive: an array or an object becomes its string form. *)
Definition ToPrimitive (v : value) : completion value :=
  match v with
  | VArr _ | VObj _ => s <- ToString host v ;; Normal (VStr s)
  | _ => Normal v
  end.

(** [a + b]: concatenation when either primitive is a string, the sum of
    the two numbers otherwise. *)
Definition add (a b : value) : completion value :=
  l <- ToPrimitive a ;;
  r <- ToPrimitive b ;;
  match l, r with
  | VStr _, _ | _, VStr _ =>
      ls <- ToString host l ;; rs <- ToString host r ;; Normal (VStr (ls ++ rs))
  | _, _ =>
      x <- ToNumber host l ;; y <- ToNumber host r ;; Normal (VNum (PrimFloat.add x y))
  end.

(** [app.get('/api/health', ...)] *)
Definition health_handler : reply :=
  {| code := 200;
     json := obj [ ("ok", VBool true);
                   ("hasKey", VBool (match OPENAI_API_KEY host with
                                     | Some (_ :: _) => true
                                     | _ => false
                                     end)) ] |}.

(** The reply of the [catch] of every storyboard and profile handler. *)
Definition store_failure (e : error) : prog reply :=
  Ret {| code := 500; json := obj [ ("error", VStr (message host e)) ] |}.

(** [const [row] = ...]: the first item, undefined when there is none. *)
Definition first_item (rows : value) : completion value :=
  items <- iterate rows ;; Normal (hd VUndefined items).

(** [app.get('/api/storyboard/list', ...)] *)
Definition list_handler : prog reply :=
  try_catch
    (rows <~ sb host (js "/stories?select=*&order=created_at.desc&limit=30") (js "GET") None ;;
     Ret {| code := 200; json := obj [ ("stories", rows) ] |})
    store_failure.

(** The object the react handler patches the story with. *)
Definition react_patch (v : float) (likes dislikes : value) : completion value :=
  if PrimFloat.eqb v 1%float
  then n <- add (or_else likes (VNum 0%float)) (VNum 1%float) ;; Normal (obj [ ("likes", n) ])
  else n <- add (or_else dislikes (VNum 0%float)) (VNum 1%float) ;;
       Normal (obj [ ("dislikes", n) ]).

Definition react_body (body : value) : prog reply :=
  story_id <~ lift (Get body (prop "story_id")) ;;
  value <~ lift (Get body (prop "value")) ;;
  v <~ lift (ToNumber host value) ;;
  if negb (truthy story_id) || negb (includes [1%float; (-1)%float] v)
  then Ret {| code := 400; json := obj [ ("error", str "Invalid reaction") ] |}
  else
    id <~ lift (ToString host story_id) ;;
    current <~ sb host (js "/stories?id=eq." ++ id ++ js "&select=likes,dislikes")
                  (js "GET") None ;;
    n <~ lift (if nullish current
               then Throw (TypeError (js "Cannot read properties of undefined or null"))
               else Normal (length_of current)) ;;
    if negb (truthy n)
    then Ret {| code := 404; json := obj [ ("error", str "Story not found") ] |}
    else
      row <~ lift (Get current (Index 0)) ;;
      likes <~ lift (Get row (prop "likes")) ;;
      dislikes <~ lift (Get row (prop "dislikes")) ;;
      patch <~ lift (react_patch v likes dislikes) ;;
      id' <~ lift (ToString host story_id) ;;
      rows <~ sb host (js "/stories?id=eq." ++ id') (js "PATCH") (Some patch) ;;
      updated <~ lift (first_item rows) ;;
      Ret {| code := 200; json := obj [ ("ok", VBool true); ("story", updated) ] |}.

(** [app.post('/api/storyboard/react', ...)] *)
Definition react_handler (body : value) : prog reply :=
  try_catch (react_body body) store_failure.

Definition comment_body (body : value) : prog reply :=
  story_id <~ lift (Get body (prop "story_id")) ;;
  handle <~ lift (Get body (prop "handle")) ;;
  text <~ lift (Get body (prop "body")) ;;
  if negb (truthy story_id) || negb (truthy text)
  then Ret {| code := 400; json := obj [ ("error", str "Missing story_id or body") ] |}
  else
    handle' <~ lift (sanitizeText (or_else handle (str "Anon"))) ;;
    text' <~ lift (sanitizeText text) ;;
    rows <~ sb host (js "/story_comments") (js "POST")
              (Some (VArr [ obj [ ("story_id", story_id); ("handle", handle');
                                  ("body", text') ] ])) ;;
    row <~ lift (first_item rows) ;;
    Ret {| code := 200; json := obj [ ("ok", VBool true); ("comment", row) ] |}.

(** [app.post('/api/storyboard/comment', ...)] *)
Definition comment_handler (body : value) : prog reply :=
  try_catch (comment_body body) store_failure.

(** [app.get('/api/storyboard/comments', ...)], on [req.query] *)
Definition comments_handler (query : value) : prog reply :=
  try_catch
    (story_id <~ lift (Get query (prop "story_id")) ;;
     if negb (truthy story_id)
     then Ret {| code := 400; json := obj [ ("error", str "Missing story_id") ] |}
     else
       id <~ lift (ToString host story_id) ;;
       rows <~ sb host (js "/story_comments?story_id=eq." ++ id ++
                        js "&select=*&order=created_at.asc") (js "GET") None ;;
       Ret {| code := 200; json := obj [ ("comments", rows) ] |})
    store_failure.

(** [app.post('/api/profile/set', ...)] *)
Definition profile_set_handler (body : value) : prog reply :=
  try_catch
    (client_id <~ lift (Get body (prop "client_id")) ;;
     nickname <~ lift (Get body (prop "nickname")) ;;
     if negb (truthy client_id) || negb (truthy nickname)
     then Ret {| code := 400; json := obj [ ("error", str "Missing client_id or nickname") ] |}
     else
       nickname' <~ lift (sanitizeText nickname) ;;
       rows <~ sb host (js "/profiles") (js "POST")
                 (Some (VArr [ obj [ ("client_id", client_id); ("nickname", nickname') ] ])) ;;
       row <~ lift (first_item rows) ;;
       Ret {| code := 200; json := obj [ ("ok", VBool true); ("profile", row) ] |})
    store_failure.

(** [app.get('/api/profile/get', ...)], on [req.query] *)
Definition profile_get_handler (query : value) : prog reply :=
  try_catch
    (client_id <~ lift (Get query (prop "client_id")) ;;
     if negb (truthy client_id)
     then Ret {| code := 400; json := obj [ ("error", str "Missing client_id") ] |}
     else
       id <~ lift (ToString host client_id) ;;
       rows <~ sb host (js "/profiles?client_id=eq." ++ id ++ js "&select=*") (js "GET") None ;;
       first <~ lift (Get rows (Index 0)) ;;
       Ret {| code := 200; json := obj [ ("profile", or_else first VNull) ] |})
    store_failure.
End Endpoints.

(** ** The vocabulary of the properties *)

(** The loop with the fuel [replace] gives it. *)
Definition scan (p : list atom) (fn : jsstring -> jsstring) (prev : option N) (s : jsstring) :=
  replace_from (S (length s)) p fn prev s.

Definition is_vowel (c : N) : bool := existsb (same_char c) (js "aeiou").
Definition is_letter (c : N) : bool :=
  ((65 <=? c) && (c <=? 90)) || ((97 <=? c) && (c <=? 122)).

(** What [maskWord] does to one code unit. *)
Definition mask_char (c : N) : N := if is_vowel c then asterisk else c.

(** Equality of a text and a term, ignoring case. *)
Fixpoint ci_eqb (m t : jsstring) : bool :=
  match m, t with
  | [], [] => true
  | x :: m', c :: t' => same_char x c && ci_eqb m' t'
  | _, _ => false
  end.

Fixpoint last_opt (l : jsstring) : option N :=
  match l with
  | [] => None
  | [c] => Some c
  | _ :: l' => last_opt l'
  end.

(** A term the loop is run with: letters only, a vowel among them. *)
Definition good_term (t : jsstring) : bool := forallb is_letter t && existsb is_vowel t.

Definition pass (t : jsstring) (prev : option N) (s : jsstring) : jsstring :=
  scan (word_re t) (fun m => maskWord m) prev s.

(** What a pass does to a maximal run of word characters. *)
Definition mask_if (hit : bool) (w : jsstring) : jsstring :=
  if hit then map mask_char w else w.

Definition no_vowel (m : jsstring) : bool := forallb (fun c => negb (is_vowel c)) m.

(** The text is one of the terms, ignoring case. *)
Definition listed (terms : list jsstring) (w : jsstring) : bool := existsb (ci_eqb w) terms.

(** *** Whole-word occurrences, as the specification words them *)

(** [t] occurs in [s] at offset [a] as a whole word, ignoring case: the text
    there is [t] up to case, no word character stands before it and none
    after it. *)
Definition whole_word_at (s : jsstring) (a : nat) (t : jsstring) : Prop :=
  exists pre m post,
    s = pre ++ m ++ post /\ length pre = a /\ ci_eqb m t = true /\
    is_word_at (last_opt pre) = false /\ is_word_at (hd_error post) = false.

(** Position [i] of [s] lies inside a whole-word occurrence of a term. *)
Definition in_banned_word (terms : list jsstring) (s : jsstring) (i : nat) : Prop :=
  exists t a, In t terms /\ whole_word_at s a t /\ (a <= i < a + length t)%nat.

(** *** A sample host and upstream service for the examples *)

Definition quote : jsstring := [34].

(** A body with a top-level output text. *)
Definition sample_body : jsstring :=
  js "{" ++ quote ++ js "output_text" ++ quote ++ js ":" ++
  quote ++ js "The door creaks open." ++ quote ++ js "}".

(** An engine that parses the two bodies of the examples and converts the
    one numeric string they use; no example prints a number that is not an
    integer. *)
Definition sample_host : Host := {|
  shortest_decimal := fun _ => js "0.5";
  StringToNumber := fun s => if jsstring_eqb s (js "9") then 9%float else PrimFloat.nan;
  JSON_parse := fun raw =>
    if jsstring_eqb raw (js "{}") then Some (obj [])
    else if jsstring_eqb raw sample_body
         then Some (obj [ ("output_text", str "The door creaks open.") ])
         else None;
  engine_message := fun _ => js "TypeError";
  OPENAI_API_KEY := Some (js "sk-test");
  SUPABASE_URL := Some (js "https://db.example");
  SUPABASE_SERVICE_ROLE := Some (js "role")
|}.

(** An upstream service that answers every request with one status and body. *)
Definition upstream (st : N) (raw : jsstring) : call -> answer :=
  fun _ => Responded {| status := st; text := Normal raw |}.

(** A turn of an earlier exchange and a request that carries it. *)
Definition sample_turn : value :=
  obj [ ("role", str "assistant"); ("content", str "You stand before a door.") ].

Definition sample_request : value :=
  obj [ ("history", VArr [sample_turn]);
        ("userTurn", str "I open the door.");
        ("mood", str "noir");
        ("drama", VNum 4%float) ].

(** An own property of an object. *)
Definition has_own (k : string) (v : value) : bool :=
  match v with
  | VObj props => match lookup (js k) props with Some _ => true | None => false end
  | _ => false
  end.

(** *** Vocabulary of the further properties *)

(** What a spread accepts. *)
Definition iterable (v : value) : bool :=
  match v with VArr _ | VStr _ => true | _ => false end.

(** The request [sb] sends, and what it does once the request has settled. *)
Definition store_call (base role path method : jsstring) (body : option value) : call :=
  Fetch (base ++ js "/rest/v1" ++ path) method
    [ ("apikey", role);
      ("Authorization", js "Bearer " ++ role);
      ("Content-Type", js "application/json");
      ("Prefer", js "return=representation") ]
    body.

Definition sb_settled (host : Host) (settled : answer) : prog value :=
  match settled with
  | Rejected e => Raise e
  | Responded res =>
      if negb (ok res)
      then t <~ lift (text res) ;;
           Raise (Error (js "[Supabase " ++ digits (status res) ++ js "] " ++ t))
      else t <~ lift (text res) ;;
           match JSON_parse host t with
           | Some v => Ret v
           | None => Raise SyntaxError
           end
  end.

Definition not_configured : jsstring :=
  js "Supabase is not configured (SUPABASE_URL / SUPABASE_SERVICE_ROLE missing).".

(** A host like the sample one whose JSON.parse knows the bodies of a table. *)
Definition parsing_host (table : list (jsstring * value)) : Host := {|
  shortest_decimal := shortest_decimal sample_host;
  StringToNumber := StringToNumber sample_host;
  JSON_parse := fun raw => lookup raw table;
  engine_message := engine_message sample_host;
  OPENAI_API_KEY := OPENAI_API_KEY sample_host;
  SUPABASE_URL := SUPABASE_URL sample_host;
  SUPABASE_SERVICE_ROLE := SUPABASE_SERVICE_ROLE sample_host
|}.

(** A host without the store's settings. *)
Definition unconfigured_host : Host := {|
  shortest_decimal := shortest_decimal sample_host;
  StringToNumber := StringToNumber sample_host;
  JSON_parse := JSON_parse sample_host;
  engine_message := engine_message sample_host;
  OPENAI_API_KEY := OPENAI_API_KEY sample_host;
  SUPABASE_URL := None;
  SUPABASE_SERVICE_ROLE := None
|}.

(** A store that answers reads with one answer and writes with another. *)
Definition by_method (read write : answer) : call -> answer :=
  fun c => match c with
           | Fetch _ method _ _ => if jsstring_eqb method (js "GET") then read else write
           end.

Definition answered (st : N) (raw : jsstring) : answer :=
  Responded {| status := st; text := Normal raw |}.

(** [data.output[0].content[0].text], read without exceptions. *)
Definition nested_text (data : value) : value :=
  get_prop
    (get_prop (get_prop (get_prop (get_prop data (prop "output")) (Index 0)) (prop "content"))
              (Index 0))
    (prop "text").

(** A body with the nested text only. *)
Definition nested_body : value :=
  obj [ ("output",
         VArr [ obj [ ("content", VArr [ obj [ ("text", str "You shit yourself.") ] ]) ] ]) ].

(** Every result a program can end with satisfies [P]. *)
Fixpoint results {A} (P : A -> Prop) (m : prog A) : Prop :=
  match m with
  | Ret a => P a
  | Raise _ => True
  | Await _ k => forall x, results P (k x)
  end.

(** * Properties *)

(** ** The replace loop *)

Lemma match_here_splits p : forall prev s m r,
  match_here p prev s = Some (m, r) -> s = m ++ r.
Proof.
  induction p as [|a p IH]; intros prev s m r H; simpl in H.
  - now inversion H.
  - destruct a as [|c|cs].
    + destruct (xorb _ _); [eauto | discriminate].
    + destruct s as [|x s']; [discriminate|].
      destruct (same_char x c); [|discriminate].
      destruct (match_here p (Some x) s') as [[m' r']|] eqn:E; [|discriminate].
      inversion H; subst. simpl. f_equal. eauto.
    + destruct s as [|x s']; [discriminate|].
      destruct (existsb (same_char x) cs); [|discriminate].
      destruct (match_here p (Some x) s') as [[m' r']|] eqn:E; [|discriminate].
      inversion H; subst. simpl. f_equal. eauto.
Qed.

(** Any fuel above the length of the input gives the same result: the loop
    never stops for want of fuel. *)
Lemma replace_from_fuel p fn : forall k k' prev s,
  (length s < k)%nat -> (length s < k')%nat ->
  replace_from k p fn prev s = replace_from k' p fn prev s.
Proof.
  induction k as [|k IH]; intros k' prev s Hk Hk'; [lia|].
  destruct k' as [|k']; [lia|]. simpl.
  assert (Hadv : match s with [] => [] | c :: s' => c :: replace_from k p fn (Some c) s' end
               = match s with [] => [] | c :: s' => c :: replace_from k' p fn (Some c) s' end).
  { destruct s as [|c s']; [reflexivity|]. simpl in *. f_equal. apply IH; lia. }
  destruct (match_here p prev s) as [[[|x m] r]|] eqn:E.
  - now rewrite Hadv.
  - apply match_here_splits in E. subst s. f_equal.
    rewrite length_app in *. simpl in *. apply IH; lia.
  - exact Hadv.
Qed.

Lemma scan_eq p fn prev s :
  scan p fn prev s =
  let advance := match s with [] => [] | c :: s' => c :: scan p fn (Some c) s' end in
  match match_here p prev s with
  | Some (x :: m, r) => fn (x :: m) ++ scan p fn (Some (last m x)) r
  | Some ([], _) => fn [] ++ advance
  | None => advance
  end.
Proof.
  unfold scan at 1. simpl.
  assert (Hadv : match s with [] => [] | c :: s' => c :: replace_from (length s) p fn (Some c) s' end
               = match s with [] => [] | c :: s' => c :: scan p fn (Some c) s' end).
  { destruct s as [|c s']; [reflexivity|]. reflexivity. }
  destruct (match_here p prev s) as [[[|x m] r]|] eqn:E.
  - now rewrite Hadv.
  - f_equal. unfold scan. apply match_here_splits in E. subst s.
    apply replace_from_fuel; rewrite ?length_app; simpl; lia.
  - exact Hadv.
Qed.

Lemma replace_scan s p fn : replace s p fn = scan p fn None s.
Proof. reflexivity. Qed.

(** ** Vowels and letters *)

Ltac bools :=
  repeat match goal with
  | H : _ && _ = true |- _ => apply andb_true_iff in H; destruct H
  | H : _ || _ = true |- _ => apply orb_true_iff in H; destruct H
  | H : _ && _ = false |- _ => apply andb_false_iff in H; destruct H
  | H : _ || _ = false |- _ => apply orb_false_iff in H; destruct H
  | H : negb _ = true |- _ => apply negb_true_iff in H
  | H : negb _ = false |- _ => apply negb_false_iff in H
  | H : (_ <=? _) = true |- _ => apply N.leb_le in H
  | H : (_ <=? _) = false |- _ => apply N.leb_gt in H
  | H : (_ =? _) = true |- _ => apply N.eqb_eq in H
  | H : (_ =? _) = false |- _ => apply N.eqb_neq in H
  end.

Ltac split_bools :=
  repeat match goal with
  | |- context [?a <=? ?b] => destruct (N.leb_spec a b)
  | |- context [?a =? ?b] => destruct (N.eqb_spec a b)
  end; simpl; try reflexivity; try lia.

Lemma letter_is_word c : is_letter c = true -> is_word_char c = true.
Proof. unfold is_letter, is_word_char. intros H. bools; split_bools. Qed.

Lemma canonicalize_letter x c :
  canonicalize x = canonicalize c -> is_letter c = true -> is_letter x = true.
Proof.
  unfold canonicalize, is_letter. intros E H.
  destruct ((97 <=? x) && (x <=? 122)) eqn:Hx; destruct ((97 <=? c) && (c <=? 122)) eqn:Hc;
    bools; split_bools.
Qed.

Lemma same_char_letter x c : same_char x c = true -> is_letter c = true -> is_letter x = true.
Proof. unfold same_char. intros H. apply N.eqb_eq in H. now apply canonicalize_letter. Qed.

Lemma same_char_vowel x c : same_char x c = true -> is_vowel x = is_vowel c.
Proof.
  unfold same_char, is_vowel. intros H. apply N.eqb_eq in H.
  unfold same_char. now rewrite H.
Qed.

Lemma vowel_is_letter c : is_vowel c = true -> is_letter c = true.
Proof.
  unfold is_vowel. simpl. intros H.
  repeat (apply orb_true_iff in H; destruct H as [H|H]); try discriminate;
    (eapply same_char_letter; [exact H | reflexivity]).
Qed.

Lemma nonword_not_vowel c : is_word_char c = false -> is_vowel c = false.
Proof.
  intros H. destruct (is_vowel c) eqn:V; [|reflexivity].
  apply vowel_is_letter, letter_is_word in V. congruence.
Qed.

Lemma asterisk_not_vowel : is_vowel asterisk = false.
Proof. reflexivity. Qed.

Lemma mask_char_not_vowel c : is_vowel (mask_char c) = false.
Proof. unfold mask_char. destruct (is_vowel c) eqn:E; [reflexivity | exact E]. Qed.

Lemma match_vowel prev c w :
  match_here VOWEL_RE prev (c :: w) = if is_vowel c then Some ([c], w) else None.
Proof.
  unfold VOWEL_RE, is_vowel. cbn [match_here].
  now destruct (existsb (same_char c) (js "aeiou")).
Qed.

(** [maskWord] masks code unit by code unit. *)
Lemma scan_vowels : forall w prev,
  scan VOWEL_RE (fun _ => [asterisk]) prev w = map mask_char w.
Proof.
  induction w as [|c w IH]; intros prev; rewrite scan_eq; [reflexivity|].
  rewrite match_vowel. cbn [map]. unfold mask_char at 1.
  destruct (is_vowel c); simpl; now rewrite IH.
Qed.

Lemma maskWord_map w : maskWord w = map mask_char w.
Proof. unfold maskWord. rewrite replace_scan. apply scan_vowels. Qed.

(** ** Whole-word matches *)

Lemma BAD_WORDS_good : forallb good_term BAD_WORDS = true.
Proof. reflexivity. Qed.

Lemma last_default (l : jsstring) : forall d d', l <> [] -> last l d = last l d'.
Proof.
  induction l as [|y l IH]; intros d d' H; [congruence|].
  destruct l as [|z l]; [reflexivity|].
  change (last (z :: l) d = last (z :: l) d'). apply IH. discriminate.
Qed.

Lemma last_opt_cons x m : last_opt (x :: m) = Some (last m x).
Proof.
  revert x. induction m as [|y m IH]; intros x; [reflexivity|].
  change (last_opt (x :: y :: m)) with (last_opt (y :: m)). rewrite IH. f_equal.
  destruct m as [|z m]; [reflexivity|].
  change (last (z :: m) y = last (z :: m) x). apply last_default. discriminate.
Qed.

Lemma last_opt_app a b : b <> [] -> last_opt (a ++ b) = last_opt b.
Proof.
  intros Hb. induction a as [|x a IH]; [reflexivity|].
  simpl. destruct (a ++ b) eqn:E; [|exact IH].
  apply app_eq_nil in E. tauto.
Qed.

Lemma ci_eqb_length m : forall t, ci_eqb m t = true -> length m = length t.
Proof.
  induction m as [|x m IH]; intros [|c t] H; simpl in *; try discriminate; [reflexivity|].
  bools. f_equal. auto.
Qed.

Lemma ci_eqb_letters m : forall t,
  ci_eqb m t = true -> forallb is_letter t = true -> forallb is_letter m = true.
Proof.
  induction m as [|x m IH]; intros [|c t] H L; simpl in *; try discriminate; [reflexivity|].
  bools. apply andb_true_iff. split; [eapply same_char_letter; eauto | eauto].
Qed.

Lemma ci_eqb_vowel m : forall t,
  ci_eqb m t = true -> existsb is_vowel m = existsb is_vowel t.
Proof.
  induction m as [|x m IH]; intros [|c t] H; simpl in *; try discriminate; [reflexivity|].
  bools. f_equal; [now apply same_char_vowel | auto].
Qed.

(** A text equal to a good term: not empty, of letters, with a vowel. *)
Lemma ci_eqb_good m t :
  good_term t = true -> ci_eqb m t = true ->
  m <> [] /\ forallb is_letter m = true /\ existsb is_vowel m = true.
Proof.
  unfold good_term. intros G H. bools.
  assert (V : existsb is_vowel m = true) by (erewrite ci_eqb_vowel; eauto).
  repeat split; [|eapply ci_eqb_letters; eauto | exact V].
  intros ->. discriminate.
Qed.

(** The characters of the term and the closing boundary. *)
Lemma match_chars t : forall prev s m r,
  match_here (map Char t ++ [WordBoundary]) prev s = Some (m, r) <->
  s = m ++ r /\ ci_eqb m t = true /\
  xorb (is_word_at (match m with [] => prev | _ => last_opt m end))
       (is_word_at (hd_error r)) = true.
Proof.
  induction t as [|c t IH]; intros prev s m r; cbn [map app match_here].
  - destruct (xorb (is_word_at prev) (is_word_at (hd_error s))) eqn:X; split.
    + intros H. inversion H; subst. auto.
    + intros (-> & E & B). destruct m; [reflexivity | discriminate].
    + discriminate.
    + intros (-> & E & B). destruct m; [|discriminate]. simpl in *. congruence.
  - destruct s as [|x s'].
    + split; [discriminate|]. intros (E & C & _).
      symmetry in E. apply app_eq_nil in E as [-> _]. discriminate.
    + split.
      * destruct (same_char x c) eqn:SC; [|discriminate].
        destruct (match_here (map Char t ++ [WordBoundary]) (Some x) s') as [[m' r']|] eqn:E;
          [|discriminate].
        intros H. inversion H; subst. apply IH in E as (-> & C & B).
        repeat split; [simpl; now rewrite SC|].
        destruct m' as [|y m'']; [exact B|].
        change (last_opt (x :: y :: m'')) with (last_opt (y :: m'')). exact B.
      * intros (E & C & B). destruct m as [|y m']; [discriminate|].
        simpl in E. inversion E; subst y s'. simpl in C. bools.
        rewrite H.
        assert (M : match_here (map Char t ++ [WordBoundary]) (Some x) (m' ++ r) = Some (m', r)).
        { apply IH. repeat split; [assumption|].
          destruct m' as [|z m'']; [exact B|].
          change (last_opt (x :: z :: m'')) with (last_opt (z :: m'')) in B. exact B. }
        now rewrite M.
Qed.

Lemma forallb_letter_hd m :
  m <> [] -> forallb is_letter m = true -> is_word_at (hd_error m) = true.
Proof.
  destruct m as [|x m]; [congruence|]. simpl. intros _ H. bools. now apply letter_is_word.
Qed.

Lemma forallb_letter_last m :
  m <> [] -> forallb is_letter m = true -> is_word_at (last_opt m) = true.
Proof.
  induction m as [|x m IH]; [congruence|]. intros _ H. simpl in H. bools.
  destruct m as [|y m]; [simpl; now apply letter_is_word|].
  change (last_opt (x :: y :: m)) with (last_opt (y :: m)). apply IH; [discriminate | assumption].
Qed.

(** A match of [\bterm\b]: the text of the term, ignoring case, with no word
    character before it and none after it. *)
Lemma match_word t prev s m r :
  good_term t = true ->
  match_here (word_re t) prev s = Some (m, r) <->
  s = m ++ r /\ ci_eqb m t = true /\
  is_word_at prev = false /\ is_word_at (hd_error r) = false.
Proof.
  intros G. unfold word_re. cbn [match_here]. split.
  - destruct (xorb (is_word_at prev) (is_word_at (hd_error s))) eqn:X; [|discriminate].
    intros H. apply match_chars in H as (-> & C & B).
    destruct (ci_eqb_good _ _ G C) as (Hne & L & _).
    pose proof (forallb_letter_hd Hne L) as Hh.
    pose proof (forallb_letter_last Hne L) as Hl.
    destruct m as [|x m']; [congruence|].
    rewrite Hl in B. simpl in X, Hh. rewrite Hh in X.
    repeat split; try assumption.
    + now destruct (is_word_at prev).
    + now destruct (is_word_at (hd_error r)).
  - intros (-> & C & P & R).
    destruct (ci_eqb_good _ _ G C) as (Hne & L & _).
    pose proof (forallb_letter_hd Hne L) as Hh.
    pose proof (forallb_letter_last Hne L) as Hl.
    destruct m as [|x m']; [congruence|].
    change (hd_error ((x :: m') ++ r)) with (hd_error (x :: m')).
    rewrite P, Hh. cbn [xorb].
    apply match_chars. repeat split; [assumption|].
    rewrite Hl, R. reflexivity.
Qed.

(** ** One pass of the loop: [out.replace(re, (m) => maskWord(m))] *)

Lemma pass_no_match t prev c s :
  match_here (word_re t) prev (c :: s) = None ->
  pass t prev (c :: s) = c :: pass t (Some c) s.
Proof. intros H. unfold pass. rewrite scan_eq, H. reflexivity. Qed.

Lemma run_unique : forall m r w s,
  forallb is_word_char m = true -> forallb is_word_char w = true ->
  is_word_at (hd_error r) = false -> is_word_at (hd_error s) = false ->
  m ++ r = w ++ s -> m = w /\ r = s.
Proof.
  induction m as [|x m IH]; intros r w s Hm Hw Hr Hs E.
  - destruct w as [|y w]; [auto|]. simpl in *. subst r. simpl in Hr. bools. congruence.
  - destruct w as [|y w]; simpl in *.
    + subst s. simpl in Hs. bools. congruence.
    + inversion E; subst y. bools.
      destruct (IH r w s) as [-> ->]; auto.
Qed.

Lemma letters_are_words m : forallb is_letter m = true -> forallb is_word_char m = true.
Proof.
  induction m as [|x m IH]; [reflexivity|]. simpl. intros H. bools.
  apply andb_true_iff. split; [now apply letter_is_word | auto].
Qed.

Lemma vowel_clash : forall mm r m s,
  mm ++ r = m ++ s -> forallb is_letter mm = true -> existsb is_vowel mm = true ->
  no_vowel m = true -> is_word_at (hd_error s) = false -> False.
Proof.
  induction mm as [|x mm IH]; intros r m s E L V NV B; [discriminate|].
  destruct m as [|y m]; simpl in *.
  - subst s. simpl in B. apply andb_true_iff in L as [Lx _].
    apply letter_is_word in Lx. congruence.
  - inversion E; subst y. apply andb_true_iff in L as [Lx L], NV as [NVx NV].
    apply negb_true_iff in NVx. rewrite NVx in V. simpl in V. eauto.
Qed.

Section Pass.
Variable t : jsstring.
Hypothesis good : good_term t = true.

Lemma pass_nil prev : pass t prev [] = [].
Proof.
  unfold pass. rewrite scan_eq.
  destruct (match_here (word_re t) prev []) as [[m r]|] eqn:E; [|reflexivity].
  apply match_word in E as (E & C & _); [|exact good].
  destruct (ci_eqb_good _ _ good C) as (Hne & _).
  symmetry in E. apply app_eq_nil in E as [-> _]. congruence.
Qed.

Lemma pass_nonword prev c s :
  is_word_char c = false -> pass t prev (c :: s) = c :: pass t (Some c) s.
Proof.
  intros W. apply pass_no_match.
  destruct (match_here (word_re t) prev (c :: s)) as [[m r]|] eqn:E; [|reflexivity].
  apply match_word in E as (E & C & _); [|exact good].
  destruct (ci_eqb_good _ _ good C) as (Hne & L & _).
  destruct m as [|x m]; [congruence|]. inversion E; subst x.
  simpl in L. bools. apply letter_is_word in H. congruence.
Qed.

(** Of the code unit before it, a pass only looks at whether it is a
    word character. *)
Lemma match_word_prev prev prev' s :
  is_word_at prev = is_word_at prev' ->
  match_here (word_re t) prev s = match_here (word_re t) prev' s.
Proof.
  intros P.
  destruct (match_here (word_re t) prev s) as [[m r]|] eqn:E.
  - symmetry. apply match_word; [exact good|].
    apply match_word in E as (? & ? & ? & ?); [|exact good].
    repeat split; congruence.
  - destruct (match_here (word_re t) prev' s) as [[m r]|] eqn:E'; [|reflexivity].
    apply match_word in E' as (? & ? & ? & ?); [|exact good].
    assert (M : match_here (word_re t) prev s = Some (m, r))
      by (apply match_word; [exact good | repeat split; congruence]).
    congruence.
Qed.

Lemma pass_prev prev prev' s :
  is_word_at prev = is_word_at prev' -> pass t prev s = pass t prev' s.
Proof.
  intros P. unfold pass. rewrite (scan_eq _ _ prev), (scan_eq _ _ prev').
  now rewrite (match_word_prev _ _ s P).
Qed.

Lemma pass_boundary prev s :
  is_word_at (hd_error s) = false -> pass t prev s = pass t None s.
Proof.
  destruct s as [|c s]; intros B; [now rewrite !pass_nil|].
  simpl in B. now rewrite !pass_nonword.
Qed.

Lemma pass_inside : forall w prev s,
  is_word_at prev = true -> forallb is_word_char w = true ->
  pass t prev (w ++ s) = w ++ pass t (match w with [] => prev | _ => last_opt w end) s.
Proof.
  induction w as [|c w IH]; intros prev s P W; [reflexivity|].
  simpl in W. bools. cbn [app]. rewrite pass_no_match.
  - f_equal. rewrite IH; [|assumption|assumption].
    destruct w; reflexivity.
  - destruct (match_here (word_re t) prev (c :: w ++ s)) as [[m r]|] eqn:E; [|reflexivity].
    apply match_word in E as (_ & _ & P' & _); [congruence | exact good].
Qed.

Lemma pass_run prev w s :
  is_word_at prev = false -> w <> [] -> forallb is_word_char w = true ->
  is_word_at (hd_error s) = false ->
  pass t prev (w ++ s) = mask_if (ci_eqb w t) w ++ pass t None s.
Proof.
  intros P Hne W B. destruct (ci_eqb w t) eqn:C; unfold mask_if.
  - assert (M : match_here (word_re t) prev (w ++ s) = Some (w, s))
      by (apply match_word; auto).
    unfold pass. rewrite scan_eq, M. destruct w as [|x w']; [congruence|].
    rewrite maskWord_map. cbv zeta. f_equal. now apply pass_boundary.
  - destruct w as [|x w']; [congruence|]. cbn [app]. rewrite pass_no_match.
    + simpl in W. bools. f_equal. rewrite pass_inside; [|assumption|assumption].
      f_equal. now apply pass_boundary.
    + destruct (match_here (word_re t) prev (x :: w' ++ s)) as [[m r]|] eqn:E; [|reflexivity].
      apply match_word in E as (E & C' & _ & R); [|exact good].
      destruct (ci_eqb_good _ _ good C') as (_ & L & _).
      destruct (run_unique m r (x :: w') s) as [-> _]; auto using letters_are_words.
      congruence.
Qed.

(** A stretch without vowels holds no match. *)
Lemma pass_no_vowel : forall m prev s,
  no_vowel m = true -> is_word_at (hd_error s) = false ->
  pass t prev (m ++ s) = m ++ pass t None s.
Proof.
  induction m as [|c m IH]; intros prev s NV B; [now apply pass_boundary|].
  cbn [app]. rewrite pass_no_match.
  - f_equal. apply IH; [|assumption]. simpl in NV. now bools.
  - destruct (match_here (word_re t) prev (c :: m ++ s)) as [[mm r]|] eqn:E; [|reflexivity].
    apply match_word in E as (E & C & _); [|exact good].
    destruct (ci_eqb_good _ _ good C) as (_ & L & V).
    exfalso. symmetry in E. exact (vowel_clash mm r (c :: m) s E L V NV B).
Qed.

Lemma pass_keeps_boundary s :
  is_word_at (hd_error s) = false -> is_word_at (hd_error (pass t None s)) = false.
Proof.
  destruct s as [|c s]; intros B; [now rewrite pass_nil|].
  simpl in B. now rewrite pass_nonword.
Qed.
End Pass.

(** ** The whole loop, run by run *)

Lemma sanitize_with_cons t terms s :
  sanitize_with (t :: terms) s = sanitize_with terms (pass t None s).
Proof. reflexivity. Qed.

Lemma sanitize_with_nil_text : forall terms,
  forallb good_term terms = true -> sanitize_with terms [] = [].
Proof.
  induction terms as [|t terms IH]; intros G; [reflexivity|].
  simpl in G. bools. rewrite sanitize_with_cons, pass_nil; auto.
Qed.

Lemma sanitize_with_nonword : forall terms c s,
  forallb good_term terms = true -> is_word_char c = false ->
  sanitize_with terms (c :: s) = c :: sanitize_with terms s.
Proof.
  induction terms as [|t terms IH]; intros c s G W; [reflexivity|].
  simpl in G. bools. rewrite !sanitize_with_cons, pass_nonword by assumption.
  rewrite IH by assumption. do 2 f_equal. apply pass_prev; [assumption|].
  simpl. exact W.
Qed.

Lemma sanitize_with_boundary terms s :
  forallb good_term terms = true ->
  is_word_at (hd_error s) = false -> is_word_at (hd_error (sanitize_with terms s)) = false.
Proof.
  intros G. destruct s as [|c s]; intros B.
  - now rewrite sanitize_with_nil_text.
  - simpl in B. now rewrite sanitize_with_nonword.
Qed.

Lemma sanitize_with_no_vowel : forall terms m s,
  forallb good_term terms = true ->
  no_vowel m = true -> is_word_at (hd_error s) = false ->
  sanitize_with terms (m ++ s) = m ++ sanitize_with terms s.
Proof.
  induction terms as [|t terms IH]; intros m s G NV B; [reflexivity|].
  simpl in G. bools. rewrite !sanitize_with_cons, pass_no_vowel by assumption.
  apply IH; auto using pass_keeps_boundary.
Qed.

Lemma no_vowel_masked w : no_vowel (map mask_char w) = true.
Proof.
  induction w as [|c w IH]; [reflexivity|]. simpl.
  now rewrite mask_char_not_vowel.
Qed.

(** A maximal run of word characters is masked when it is a listed term and
    kept otherwise; what follows it is treated on its own. *)
Lemma sanitize_with_run : forall terms w s,
  forallb good_term terms = true ->
  w <> [] -> forallb is_word_char w = true -> is_word_at (hd_error s) = false ->
  sanitize_with terms (w ++ s) = mask_if (listed terms w) w ++ sanitize_with terms s.
Proof.
  induction terms as [|t terms IH]; intros w s G Hne W B; [reflexivity|].
  simpl in G. bools. rewrite !sanitize_with_cons, pass_run by auto.
  unfold listed. cbn [existsb]. destruct (ci_eqb w t); cbn [mask_if orb].
  - apply sanitize_with_no_vowel; auto using no_vowel_masked, pass_keeps_boundary.
  - apply IH; auto using pass_keeps_boundary.
Qed.

(** Induction over a text cut into separators and maximal runs of word
    characters. *)
Lemma run_split : forall s,
  exists w r, s = w ++ r /\ forallb is_word_char w = true /\ is_word_at (hd_error r) = false.
Proof.
  induction s as [|c s (w & r & E & W & B)].
  - exists [], []. auto.
  - destruct (is_word_char c) eqn:C.
    + exists (c :: w), r. subst s. simpl. rewrite C. auto.
    + exists [], (c :: s). auto.
Qed.

Lemma run_ind (P : jsstring -> Prop) :
  P [] ->
  (forall c s, is_word_char c = false -> P s -> P (c :: s)) ->
  (forall w s, w <> [] -> forallb is_word_char w = true ->
               is_word_at (hd_error s) = false -> P s -> P (w ++ s)) ->
  forall s, P s.
Proof.
  intros Hnil Hsep Hrun s.
  remember (length s) as n eqn:Hn. revert s Hn.
  induction n as [n IH] using lt_wf_ind. intros s Hn.
  destruct s as [|c s]; [exact Hnil|].
  destruct (is_word_char c) eqn:C.
  - destruct (run_split s) as (w & r & E & W & B). subst s.
    change (P ((c :: w) ++ r)). apply Hrun; [discriminate | simpl; now rewrite C | exact B |].
    apply (IH (length r)); [|reflexivity].
    subst n. simpl. rewrite length_app. lia.
  - apply Hsep; [exact C|]. apply (IH (length s)); [subst n; simpl; lia | reflexivity].
Qed.

(** ** Whole-word occurrences *)

Lemma good_in terms t : forallb good_term terms = true -> In t terms -> good_term t = true.
Proof. intros G I. rewrite forallb_forall in G. auto. Qed.

Lemma last_opt_push c pre :
  is_word_char c = false ->
  is_word_at (last_opt (c :: pre)) = false <-> is_word_at (last_opt pre) = false.
Proof.
  intros W. destruct pre as [|d pre]; [simpl; tauto|].
  change (last_opt (c :: d :: pre)) with (last_opt (d :: pre)). tauto.
Qed.

Lemma words_last pre l :
  forallb is_word_char (pre ++ l) = true -> pre <> [] -> is_word_at (last_opt pre) = true.
Proof.
  induction pre as [|x pre IH]; [congruence|]. intros W _. simpl in W. bools.
  destruct pre as [|y pre]; [exact H|].
  change (last_opt (x :: y :: pre)) with (last_opt (y :: pre)). apply IH; [assumption|discriminate].
Qed.

Lemma occurrence_starts_with_letter terms t m post :
  forallb good_term terms = true -> In t terms -> ci_eqb m t = true ->
  is_word_at (hd_error (m ++ post)) = true.
Proof.
  intros G I C. destruct (ci_eqb_good _ _ (good_in _ _ G I) C) as (Hne & L & _).
  destruct m as [|x m]; [congruence|]. simpl in *. bools. now apply letter_is_word.
Qed.

Section Occurrences.
Variable terms : list jsstring.
Hypothesis good : forallb good_term terms = true.

Lemma not_in_banned_word_sep c s :
  is_word_char c = false -> ~ in_banned_word terms (c :: s) 0.
Proof.
  intros W (t & a & I & (pre & m & post & E & La & C & _) & R).
  assert (a = 0)%nat by lia. subst a.
  destruct pre; [|discriminate]. simpl in E.
  pose proof (occurrence_starts_with_letter _ _ m post good I C) as X.
  rewrite <- E in X. simpl in X. congruence.
Qed.

Lemma in_banned_word_sep c s i :
  is_word_char c = false ->
  in_banned_word terms (c :: s) (S i) <-> in_banned_word terms s i.
Proof.
  intros W. split.
  - intros (t & a & I & (pre & m & post & E & La & C & Bl & Br) & R).
    destruct pre as [|p0 pre].
    + simpl in E. pose proof (occurrence_starts_with_letter _ _ m post good I C) as X.
      rewrite <- E in X. simpl in X. congruence.
    + simpl in E. inversion E; subst p0. simpl in La.
      exists t, (length pre). repeat split; [assumption| |lia|lia].
      exists pre, m, post. repeat split; try assumption.
      now apply (last_opt_push c pre W).
  - intros (t & a & I & (pre & m & post & E & La & C & Bl & Br) & R).
    exists t, (S a). repeat split; [assumption| |lia|lia].
    exists (c :: pre), m, post. subst s. repeat split; try assumption.
    + simpl. lia.
    + now apply (last_opt_push c pre W).
Qed.

Section Run.
Variables w s : jsstring.
Hypothesis nonempty : w <> [].
Hypothesis words : forallb is_word_char w = true.
Hypothesis boundary : is_word_at (hd_error s) = false.

(** An occurrence that starts inside the run is the run. *)
Lemma occurrence_in_run t pre m post :
  In t terms -> ci_eqb m t = true -> w ++ s = pre ++ m ++ post ->
  is_word_at (last_opt pre) = false -> is_word_at (hd_error post) = false ->
  (length pre < length w)%nat -> pre = [] /\ m = w.
Proof.
  intros I C E Bl Br Lt.
  destruct (ci_eqb_good _ _ (good_in _ _ good I) C) as (_ & L & _).
  symmetry in E. apply app_eq_app in E as [l [[E1 E2]|[E1 E2]]].
  - subst pre. rewrite length_app in Lt. lia.
  - destruct pre as [|p0 pre].
    + simpl in E1. subst l. split; [reflexivity|].
      now destruct (run_unique m post w s) as [-> _]; auto using letters_are_words.
    + subst w. rewrite (@words_last (p0 :: pre) l words) in Bl; discriminate.
Qed.

(** An occurrence that starts after the run lies in what follows it. *)
Lemma occurrence_after_run t pre m post :
  In t terms -> ci_eqb m t = true -> w ++ s = pre ++ m ++ post ->
  (length w <= length pre)%nat ->
  exists l, l <> [] /\ pre = w ++ l /\ s = l ++ m ++ post.
Proof.
  intros I C E Le.
  pose proof (occurrence_starts_with_letter _ _ m post good I C) as X.
  symmetry in E. apply app_eq_app in E as [l [[E1 E2]|[E1 E2]]].
  - exists l. repeat split; try assumption.
    intros ->. simpl in E2. rewrite E2 in boundary. congruence.
  - assert (l = []).
    { subst w. rewrite length_app in Le. destruct l; [reflexivity|simpl in Le; lia]. }
    subst l. simpl in E2. rewrite <- E2 in boundary. congruence.
Qed.

Lemma in_banned_word_run i :
  (i < length w)%nat -> in_banned_word terms (w ++ s) i <-> listed terms w = true.
Proof.
  intros Lt. unfold listed. rewrite existsb_exists. split.
  - intros (t & a & I & (pre & m & post & E & La & C & Bl & Br) & R).
    destruct (occurrence_in_run t pre m post) as [_ ->]; auto; [lia|].
    now exists t.
  - intros (t & I & C). exists t, 0%nat. repeat split; [assumption| |lia|].
    + exists [], w, s. repeat split; auto.
    + rewrite <- (ci_eqb_length _ _ C). lia.
Qed.

Lemma in_banned_word_after_run j :
  in_banned_word terms (w ++ s) (length w + j) <-> in_banned_word terms s j.
Proof.
  split.
  - intros (t & a & I & (pre & m & post & E & La & C & Bl & Br) & R).
    destruct (Nat.lt_ge_cases (length pre) (length w)) as [Lt|Le].
    + destruct (occurrence_in_run t pre m post) as [-> ->]; auto.
      simpl in La. subst a. rewrite (ci_eqb_length _ _ C) in R. lia.
    + destruct (occurrence_after_run t pre m post) as (l & Hl & -> & ->); auto.
      rewrite length_app in La. exists t, (length l).
      repeat split; [assumption| |lia|lia].
      exists l, m, post. repeat split; try assumption.
      now rewrite last_opt_app in Bl.
  - intros (t & a & I & (pre & m & post & E & La & C & Bl & Br) & R).
    assert (Hpre : pre <> []).
    { intros ->. simpl in E. subst s.
      pose proof (occurrence_starts_with_letter _ _ m post good I C). congruence. }
    exists t, (length w + a)%nat. repeat split; [assumption| |lia|lia].
    exists (w ++ pre), m, post. subst s. repeat split; try assumption.
    + now rewrite <- app_assoc.
    + rewrite length_app. lia.
    + now rewrite last_opt_app.
Qed.
End Run.

(** The loop, position by position. *)
Lemma sanitize_with_pointwise : forall s i c,
  nth_error s i = Some c ->
  (in_banned_word terms s i -> nth_error (sanitize_with terms s) i = Some (mask_char c)) /\
  (~ in_banned_word terms s i -> nth_error (sanitize_with terms s) i = Some c).
Proof.
  intros s. pattern s. apply run_ind; clear s;
    [|intros c0 s W IH|intros w s Hne W B IH]; intros i c Hi.
  - destruct i; discriminate.
  - rewrite sanitize_with_nonword by assumption.
    destruct i as [|i]; simpl in Hi |- *.
    + inversion Hi; subst c0. split; [|reflexivity].
      intros X. now apply not_in_banned_word_sep in X.
    + rewrite in_banned_word_sep by assumption. now apply IH.
  - rewrite sanitize_with_run by assumption.
    destruct (Nat.lt_ge_cases i (length w)) as [Lt|Le].
    + rewrite in_banned_word_run by assumption.
      rewrite nth_error_app1 in Hi by assumption.
      rewrite nth_error_app1
        by (unfold mask_if; destruct (listed terms w); now rewrite ?length_map).
      destruct (listed terms w); cbn [mask_if]; split; intros X.
      * now rewrite nth_error_map, Hi.
      * congruence.
      * discriminate.
      * exact Hi.
    + assert (E : i = (length w + (i - length w))%nat) by lia.
      assert (Lm : length (mask_if (listed terms w) w) = length w)
        by (unfold mask_if; destruct (listed terms w); now rewrite ?length_map).
      rewrite nth_error_app2 in Hi by assumption.
      rewrite nth_error_app2 by lia. rewrite Lm.
      rewrite E at 1 3. rewrite in_banned_word_after_run by assumption.
      now apply IH.
Qed.

Lemma sanitize_with_length : forall s, length (sanitize_with terms s) = length s.
Proof.
  intros s. pattern s. apply run_ind; clear s;
    [|intros c0 s W IH|intros w s Hne W B IH].
  - now rewrite sanitize_with_nil_text.
  - rewrite sanitize_with_nonword by assumption. simpl. now rewrite IH.
  - rewrite sanitize_with_run by assumption. rewrite !length_app, IH.
    unfold mask_if. destruct (listed terms w); now rewrite ?length_map.
Qed.

Lemma listed_good w : listed terms w = true -> forallb is_word_char w = true -> w <> [].
Proof.
  unfold listed. rewrite existsb_exists. intros (t & I & C) _.
  now destruct (ci_eqb_good _ _ (good_in _ _ good I) C).
Qed.

Lemma sanitize_with_idempotent : forall s,
  sanitize_with terms (sanitize_with terms s) = sanitize_with terms s.
Proof.
  intros s. pattern s. apply run_ind; clear s;
    [|intros c0 s W IH|intros w s Hne W B IH].
  - now rewrite !sanitize_with_nil_text.
  - rewrite !sanitize_with_nonword by assumption. now rewrite IH.
  - rewrite sanitize_with_run by assumption.
    pose proof (sanitize_with_boundary terms s good B) as B'.
    destruct (listed terms w) eqn:Lw; cbn [mask_if].
    + rewrite sanitize_with_no_vowel by auto using no_vowel_masked. now rewrite IH.
    + rewrite sanitize_with_run by assumption. rewrite Lw, IH. reflexivity.
Qed.
End Occurrences.

(** ** The sanitizer *)

Lemma sanitizeText_string x :
  sanitizeText (VStr x) = Normal (VStr (sanitize_with BAD_WORDS x)).
Proof. destruct x; reflexivity. Qed.

(** C1. For every string, [sanitizeText] returns a string in which a code
    unit lying inside a whole-word occurrence of a banned term, case ignored,
    is an asterisk when it was a vowel and is unchanged (case included) when
    it was not, and in which every code unit outside such occurrences is
    unchanged; a term that only occurs inside a longer word is no whole-word
    occurrence, so it stays as it is. *)
Theorem sanitizeText_masks_whole_words (s : jsstring) :
  exists out,
    sanitizeText (VStr s) = Normal (VStr out) /\
    forall i c, nth_error s i = Some c ->
      (in_banned_word BAD_WORDS s i ->
         nth_error out i = Some (if is_vowel c then asterisk else c)) /\
      (~ in_banned_word BAD_WORDS s i -> nth_error out i = Some c).
Proof.
  exists (sanitize_with BAD_WORDS s). split; [apply sanitizeText_string|].
  intros i c Hi. exact (sanitize_with_pointwise BAD_WORDS BAD_WORDS_good s i Hi).
Qed.

(** C4. [sanitizeText] is idempotent on strings. *)
Theorem sanitizeText_idempotent (x : jsstring) :
  (y <- sanitizeText (VStr x) ;; sanitizeText y) = sanitizeText (VStr x).
Proof.
  rewrite sanitizeText_string. cbn [bind]. rewrite sanitizeText_string.
  now rewrite (sanitize_with_idempotent BAD_WORDS BAD_WORDS_good).
Qed.

(** C8. [sanitizeText] hands back undefined, null and the empty string as
    they are, and returns normally on every string. *)
Theorem sanitizeText_absent_or_empty :
  sanitizeText VUndefined = Normal VUndefined /\
  sanitizeText VNull = Normal VNull /\
  sanitizeText (VStr []) = Normal (VStr []) /\
  forall x, exists y, sanitizeText (VStr x) = Normal (VStr y).
Proof.
  repeat split. intros x. eexists. apply sanitizeText_string.
Qed.

(** C9. [sanitizeText] keeps the length of a string. *)
Theorem sanitizeText_preserves_length (x : jsstring) :
  exists y, sanitizeText (VStr x) = Normal (VStr y) /\ length y = length x.
Proof.
  exists (sanitize_with BAD_WORDS x). split; [apply sanitizeText_string|].
  apply (sanitize_with_length BAD_WORDS BAD_WORDS_good).
Qed.

(** The filter on sample texts: whole words are masked whatever their case,
    longer words and words joined by an underscore are not. *)
Example sanitize_sample :
  sanitizeText (str "You FUCKING bitch, class assholes Bastard! shit_ fuck")
  = Normal (str "You F*CK*NG b*tch, class assholes B*st*rd! shit_ f*ck").
Proof. vm_compute. reflexivity. Qed.

Example sanitize_position :
  in_banned_word BAD_WORDS (js "a Bitch!") 3 /\
  nth_error (js "a Bitch!") 3 = Some 105 /\
  nth_error (sanitize_with BAD_WORDS (js "a Bitch!")) 3 = Some asterisk.
Proof.
  split; [|split; reflexivity].
  exists (js "bitch"), 2%nat. split; [vm_compute; tauto|]. split; [|simpl; lia].
  exists (js "a "), (js "Bitch"), (js "!"). repeat split.
Qed.

(** ** The drama tables *)

Lemma jsstring_eqb_refl s : jsstring_eqb s s = true.
Proof. unfold jsstring_eqb. destruct (list_eq_dec N.eq_dec s s); congruence. Qed.

Lemma jsstring_eqb_neq s t : s <> t -> jsstring_eqb s t = false.
Proof. unfold jsstring_eqb. destruct (list_eq_dec N.eq_dec s t); congruence. Qed.

Lemma jsstring_eqb_eq s t : jsstring_eqb s t = true -> s = t.
Proof. unfold jsstring_eqb. destruct (list_eq_dec N.eq_dec s t); congruence. Qed.

(** C3, as the code has it.  Whenever the string coercion of [drama] yields
    a string, that string alone decides both tables: "1" to "5" give the
    temperatures 0.4, 0.55, 0.7, 0.85 and 1.0, and every other string gives
    the temperature 0.7 of level 3 together with the instruction text of the
    [default] branch, which is a text of its own. *)
Theorem drama_tables (host : Host) (drama : value) (s : jsstring) :
  ToString host drama = Normal s ->
  (s = js "1" -> mapDramaToTemp host drama = Normal 0.4%float) /\
  (s = js "2" -> mapDramaToTemp host drama = Normal 0.55%float) /\
  (s = js "3" ->
     mapDramaToTemp host drama = Normal 0.7%float /\
     dramaInstructions host drama = Normal
       (js "Narration style: Balanced detail. Moderate description, engaging but not theatrical.")) /\
  (s = js "4" -> mapDramaToTemp host drama = Normal 0.85%float) /\
  (s = js "5" -> mapDramaToTemp host drama = Normal 1.0%float) /\
  (s <> js "1" -> s <> js "2" -> s <> js "3" -> s <> js "4" -> s <> js "5" ->
     mapDramaToTemp host drama = Normal 0.7%float /\
     dramaInstructions host drama = Normal
       (js "Narration style: Balanced detail, engaging but not theatrical.")).
Proof.
  intros H. unfold mapDramaToTemp, dramaInstructions. rewrite H. cbn [bind].
  repeat match goal with |- _ /\ _ => split end;
    try (intros ->; try split; reflexivity).
  intros N1 N2 N3 N4 N5. cbn [switch].
  now rewrite !jsstring_eqb_neq by assumption.
Qed.

Lemma drama_tables_witness :
  mapDramaToTemp sample_host (str "9") = Normal 0.7%float /\
  dramaInstructions sample_host (str "9") = Normal
    (js "Narration style: Balanced detail, engaging but not theatrical.").
Proof.
  apply (@drama_tables sample_host (str "9") (js "9")); try reflexivity; discriminate.
Defined.

(** C3, as the claim words it, fails: the out-of-range level "9" is coerced
    to a string that is none of "1" to "5" and gets the temperature 0.7, but
    its instruction text is not the one of level 3. *)
Lemma drama_default_text_is_not_level_3 :
  ToString sample_host (str "9") = Normal (js "9") /\
  mapDramaToTemp sample_host (str "9") = mapDramaToTemp sample_host (str "3") /\
  dramaInstructions sample_host (str "9") <> dramaInstructions sample_host (str "3").
Proof.
  repeat split. vm_compute. discriminate.
Qed.

(** An input whose string coercion throws has no entry in either table. *)
Lemma drama_tables_on_shadowed_toString host :
  exists e,
    mapDramaToTemp host (obj [ ("toString", VNum 1%float) ]) = Throw e /\
    dramaInstructions host (obj [ ("toString", VNum 1%float) ]) = Throw e.
Proof. eexists. split; reflexivity. Qed.

(** A request without [drama] runs at the default 3, which is level 3. *)
Lemma drama_default_level host :
  mapDramaToTemp host (or_default VUndefined (VNum 3%float)) = Normal 0.7%float /\
  dramaInstructions host (or_default VUndefined (VNum 3%float)) = Normal
    (js "Narration style: Balanced detail. Moderate description, engaging but not theatrical.").
Proof. split; reflexivity. Qed.

(** ** The narration handler *)

(** The mood clause is asked for exactly when the caller's mood is truthy and
    is not the string "default"; an absent mood is "default". *)
Lemma mood_given_spec (raw : value) :
  mood_given (or_default raw (str "default")) = true <->
  (truthy raw = true /\ raw <> str "default").
Proof.
  unfold mood_given. destruct raw as [| |b|n|s|l|ps]; cbn [or_default].
  - split; [discriminate | intros [H _]; discriminate].
  - split; [discriminate | intros [H _]; discriminate].
  - rewrite andb_true_r. split; [intros H; split; [exact H | discriminate] | tauto].
  - rewrite andb_true_r. split; [intros H; split; [exact H | discriminate] | tauto].
  - split.
    + intros H. apply andb_true_iff in H as [T D]. split; [exact T|].
      intros E. inversion E; subst s. now rewrite jsstring_eqb_refl in D.
    + intros [T D]. rewrite T. cbn [andb].
      destruct (jsstring_eqb s (js "default")) eqn:Q; [|reflexivity].
      apply jsstring_eqb_eq in Q. subst s. now elim D.
  - split; [intros _; split; [reflexivity | discriminate] | reflexivity].
  - split; [intros _; split; [reflexivity | discriminate] | reflexivity].
Qed.

Section Continue.
Variable host : Host.

(** The handler either fails before any request and answers with the
    server fallback, or sends one request built from the payload. *)
Lemma continue_handler_unfold body :
  continue_handler host body =
  match continue_payload host body with
  | Normal payload =>
      Await (openai_call host payload)
            (fun x => try_catch (continue_settled host x) (fun _ => Ret server_fallback))
  | Throw _ => Ret server_fallback
  end.
Proof. unfold continue_handler. now destruct (continue_payload host body). Qed.

Lemma or_fallback_string text v :
  or_fallback text = Normal v -> exists t, v = VStr t /\ t <> [].
Proof.
  unfold or_fallback. destruct (truthy text) eqn:T; cbn [negb].
  - destruct text; try discriminate. cbn [call_trim bind].
    intros H. inversion H; subst v.
    destruct (jsstring_eqb (trim s) []).
    + exists FALLBACK. split; [reflexivity | discriminate].
    + exists s. split; [reflexivity|]. destruct s; [discriminate | discriminate].
  - intros H. inversion H. exists FALLBACK. split; [reflexivity | discriminate].
Qed.

(** Once the request has settled the handler answers at once, in one of
    three ways. *)
Lemma continue_settled_cases x :
  exists r, try_catch (continue_settled host x) (fun _ => Ret server_fallback) = Ret r /\
    (r = server_fallback \/
     (exists resp raw, x = Responded resp /\ text resp = Normal raw /\ ok resp = false /\
        r = {| code := 500; json := obj [ ("error", VStr (js "OpenAI error: " ++ raw)) ] |}) \/
     (exists resp t, x = Responded resp /\ ok resp = true /\ t <> [] /\
        r = {| code := 200; json := obj [ ("text", VStr t) ] |})).
Proof.
  destruct x as [e|resp]; cbn [continue_settled try_catch].
  - exists server_fallback. auto.
  - destruct (text resp) as [raw|e] eqn:T; cbn [lift pbind try_catch].
    + destruct (ok resp) eqn:O; cbn [negb].
      * destruct (or_fallback (extract_text host raw (VStr ellipsis))) as [v|e] eqn:F;
          cbn [lift pbind try_catch]; [|exists server_fallback; auto].
        destruct (or_fallback_string _ F) as (t & -> & Ht).
        rewrite sanitizeText_string. cbn [lift pbind try_catch].
        eexists. split; [reflexivity|]. right. right.
        exists resp, (sanitize_with BAD_WORDS t). repeat split; [assumption|].
        intros E. apply (f_equal (@length N)) in E.
        rewrite (sanitize_with_length BAD_WORDS BAD_WORDS_good) in E.
        destruct t; [congruence | discriminate].
      * eexists. split; [reflexivity|]. right. left. now exists resp, raw.
    + exists server_fallback. auto.
Qed.

(** Every run of the handler ends in a reply, after one request at most. *)
Lemma continue_handler_replies body world :
  exists calls r,
    run world (continue_handler host body) = (calls, Normal r) /\ (length calls <= 1)%nat.
Proof.
  rewrite continue_handler_unfold. destruct (continue_payload host body) as [p|e].
  - cbn [run]. destruct (continue_settled_cases (world (openai_call host p))) as (r & E & _).
    rewrite E. cbn [run]. exists [openai_call host p], r. auto.
  - exists [], server_fallback. auto.
Qed.

(** C5. Whenever the handler calls the completion service, the request is a
    POST to the responses endpoint whose body (the object handed to
    JSON.stringify) is the payload, and the [input] of
    the payload is the system message, then the entries of the caller's
    history in their order, then the user message holding the caller's
    [userTurn]; the system message is the base style, then the mood clause
    exactly when the caller's mood is truthy and is not "default", then the
    drama instruction. *)
Theorem continue_message_sequence (body : value) (c : call) :
  first_call (continue_handler host body) = Some c ->
  let history := or_default (get_prop body (prop "history")) (VArr []) in
  let userTurn := or_default (get_prop body (prop "userTurn")) (VStr []) in
  let mood := get_prop body (prop "mood") in
  let drama := or_default (get_prop body (prop "drama")) (VNum 3%float) in
  exists headers entries clause instructions temperature,
    c = Fetch (js "https://api.openai.com/v1/responses") (js "POST") headers
          (Some
             (obj [ ("model", str "gpt-4o-mini");
                    ("input",
                     VArr ([ obj [ ("role", str "system");
                                   ("content",
                                    VStr (baseStyle ++ clause ++ LF ++ LF ++ instructions)) ] ]
                           ++ entries ++
                           [ obj [ ("role", str "user"); ("content", userTurn) ] ]));
                    ("max_output_tokens", VNum 220%float);
                    ("temperature", VNum temperature) ])) /\
    iterate history = Normal entries /\
    (forall l, history = VArr l -> entries = l) /\
    dramaInstructions host drama = Normal instructions /\
    (truthy mood = true /\ mood <> str "default" ->
       exists m, ToString host mood = Normal m /\
         clause = LF ++ LF ++ js "Mood/Genre: This is a " ++ m ++
                  js " story. Match your narration to " ++ m ++
                  js " conventions, tone, and atmosphere.") /\
    (~ (truthy mood = true /\ mood <> str "default") -> clause = []).
Proof.
  intros H history userTurn mood drama. revert H.
  rewrite continue_handler_unfold.
  destruct (continue_payload host body) as [payload|e] eqn:P; [|discriminate].
  cbn [first_call]. intros H. inversion H; subst c. clear H.
  unfold continue_payload, Get in P.
  destruct (nullish body) eqn:Nb; [discriminate|]. cbn [bind] in P.
  destruct (styleMood host _) as [clause|] eqn:SM; [|discriminate]. cbn [bind] in P.
  destruct (dramaInstructions host _) as [instructions|] eqn:DI; [|discriminate].
  cbn [bind] in P.
  destruct (iterate _) as [entries|] eqn:IT; [|discriminate]. cbn [bind] in P.
  destruct (mapDramaToTemp host _) as [temperature|] eqn:MT; [|discriminate].
  cbn [bind] in P. inversion P; subst payload. clear P.
  eexists. exists entries, clause, instructions, temperature.
  split; [reflexivity|]. split; [first [exact IT | reflexivity]|]. split.
  { intros l Hl. unfold history in Hl. rewrite Hl in IT. simpl in IT. congruence. }
  split; [first [exact DI | reflexivity]|].
  unfold styleMood in SM. fold mood in SM.
  pose proof (mood_given_spec mood) as G.
  destruct (mood_given (or_default mood (str "default"))) eqn:MG.
  - split; [|intros Nm; elim Nm; now apply G].
    intros [Tm _].
    assert (E : or_default mood (str "default") = mood)
      by (destruct mood; try reflexivity; discriminate).
    rewrite E in SM. destruct (ToString host mood) as [m|] eqn:TS; [|discriminate].
    cbn [bind] in SM. exists m. split; [reflexivity | congruence].
  - split; [|intros _; congruence].
    intros Hm. apply G in Hm. discriminate.
Qed.
End Continue.

Lemma continue_message_sequence_witness :
  exists headers clause instructions,
    first_call (continue_handler sample_host sample_request) =
      Some (Fetch (js "https://api.openai.com/v1/responses") (js "POST") headers
              (Some
                 (obj [ ("model", str "gpt-4o-mini");
                        ("input",
                         VArr [ obj [ ("role", str "system");
                                      ("content",
                                       VStr (baseStyle ++ clause ++ LF ++ LF ++ instructions)) ];
                                sample_turn;
                                obj [ ("role", str "user");
                                      ("content", str "I open the door.") ] ]);
                        ("max_output_tokens", VNum 220%float);
                        ("temperature", VNum 0.85%float) ]))) /\
    clause = LF ++ LF ++ js "Mood/Genre: This is a noir story. Match your narration to noir conventions, tone, and atmosphere." /\
    instructions = js "Narration style: Dramatic with vivid imagery and suspense.".
Proof.
  destruct (@continue_message_sequence sample_host sample_request _ eq_refl)
    as (headers & entries & clause & instructions & temperature & E & _ & Harr & DI & Hm & _).
  exists headers, clause, instructions.
  rewrite (Harr [sample_turn] eq_refl) in E.
  destruct Hm as (m & Tm & ->); [split; [reflexivity | discriminate]|].
  inversion Tm; subst m. inversion DI; subst instructions.
  inversion E. repeat split.
Defined.

Lemma run_continue_handler host body world calls r :
  run world (continue_handler host body) = (calls, r) ->
  (calls = [] /\ r = Normal server_fallback) \/
  (exists c, first_call (continue_handler host body) = Some c /\ calls = [c] /\
     exists r', r = Normal r' /\
       try_catch (continue_settled host (world c)) (fun _ => Ret server_fallback) = Ret r').
Proof.
  rewrite continue_handler_unfold. destruct (continue_payload host body) as [p|e].
  - cbn [run]. destruct (continue_settled_cases host (world (openai_call host p))) as (r' & E & _).
    rewrite E. cbn [run]. intros H. inversion H; subst. right.
    eexists. split; [reflexivity|]. split; [reflexivity|].
    exists r'. split; [reflexivity | exact E].
  - cbn [run]. intros H. inversion H. auto.
Qed.

(** C6. When the completion service answers the handler's request with a
    status outside 200-299, the handler replies with status 500 and an
    [error] made of the raw body of that answer; it has made that one request
    and no other, and it ends with a reply, not with an exception. *)
Theorem continue_upstream_error (host : Host) (body : value) (world : call -> answer)
    (c : call) (resp : fetch_response) (raw : jsstring) :
  first_call (continue_handler host body) = Some c ->
  world c = Responded resp -> ok resp = false -> text resp = Normal raw ->
  run world (continue_handler host body) =
    ([c], Normal {| code := 500;
                    json := obj [ ("error", VStr (js "OpenAI error: " ++ raw)) ] |}).
Proof.
  intros H W O T. rewrite continue_handler_unfold in H |- *.
  destruct (continue_payload host body) as [p|e]; [|discriminate].
  cbn [first_call] in H. inversion H; subst c. clear H. cbn [run]. rewrite W.
  cbn [continue_settled try_catch]. rewrite T, O. reflexivity.
Qed.

Lemma continue_upstream_error_witness :
  exists c,
    run (upstream 503 (js "upstream down"))
        (continue_handler sample_host (obj [ ("userTurn", str "I open the door.") ])) =
    ([c], Normal {| code := 500;
                    json := obj [ ("error", str "OpenAI error: upstream down") ] |}).
Proof.
  eexists.
  eapply (@continue_upstream_error sample_host _ (upstream 503 (js "upstream down")));
    reflexivity.
Defined.

(** C7, as the code has it.  A reply of the handler that is no success is
    either the server fallback, which holds a [text], or the reply to an
    upstream status outside 200-299, which holds the raw upstream body in its
    [error] and no [text]. *)
Theorem continue_failure_replies (host : Host) (body : value) (world : call -> answer)
    (calls : list call) (r : reply) :
  run world (continue_handler host body) = (calls, Normal r) ->
  code r <> 200 ->
  (r = server_fallback /\ get_prop (json r) (prop "text") = str "(Server fallback)") \/
  (exists c resp raw,
     calls = [c] /\ world c = Responded resp /\ ok resp = false /\ text resp = Normal raw /\
     json r = obj [ ("error", VStr (js "OpenAI error: " ++ raw)) ] /\
     has_own "text" (json r) = false).
Proof.
  intros R Hc. apply run_continue_handler in R as [[-> E]|(c & H & -> & r' & E & K)].
  - inversion E. left. split; reflexivity.
  - inversion E; subst r'. clear E. rewrite continue_handler_unfold in H.
    destruct (continue_payload host body) as [p|e]; [|discriminate].
    cbn [first_call] in H. inversion H; subst c. clear H.
    destruct (continue_settled_cases host (world (openai_call host p)))
      as (r' & E & [->|[(resp & raw & W & T & O & ->)|(resp & t & W & O & Ht & ->)]]);
      rewrite E in K; inversion K; subst r.
    + left. split; reflexivity.
    + right. exists (openai_call host p), resp, raw. repeat split; assumption.
    + now elim Hc.
Qed.

Lemma continue_failure_replies_witness :
  (server_fallback = server_fallback /\
   get_prop (json server_fallback) (prop "text") = str "(Server fallback)") \/
  (exists c resp raw,
     [] = [c] /\ upstream 200 (js "{}") c = Responded resp /\ ok resp = false /\
     text resp = Normal raw /\
     json server_fallback = obj [ ("error", VStr (js "OpenAI error: " ++ raw)) ] /\
     has_own "text" (json server_fallback) = false).
Proof.
  apply (@continue_failure_replies sample_host VNull (upstream 200 (js "{}")) []
           server_fallback); [reflexivity | discriminate].
Defined.

(** C7, as the claim words it, fails: the reply to an upstream failure is a
    failure response without a [text] field. *)
Lemma upstream_failure_reply_has_no_text :
  exists calls r,
    run (upstream 503 (js "upstream down")) (continue_handler sample_host (obj [])) =
      (calls, Normal r) /\
    code r = 500 /\ has_own "text" (json r) = false.
Proof.
  do 2 eexists. split; [vm_compute; reflexivity|]. split; reflexivity.
Qed.

(** A successful reply holds a text that is not empty. *)
Lemma continue_success_text_nonempty host body world calls r :
  run world (continue_handler host body) = (calls, Normal r) ->
  code r = 200 ->
  exists t, json r = obj [ ("text", VStr t) ] /\ t <> [].
Proof.
  intros R Hc. apply run_continue_handler in R as [[-> E]|(c & H & -> & r' & E & K)].
  - inversion E; subst r. discriminate.
  - inversion E; subst r'. clear E. rewrite continue_handler_unfold in H.
    destruct (continue_payload host body) as [p|e]; [|discriminate].
    cbn [first_call] in H. inversion H; subst c. clear H.
    destruct (continue_settled_cases host (world (openai_call host p)))
      as (r' & E & [->|[(resp & raw & W & T & O & ->)|(resp & t & W & O & Ht & ->)]]);
      rewrite E in K; inversion K; subst r; try discriminate.
    now exists t.
Qed.

(** A successful answer whose body does not parse leaves the initial text,
    the ellipsis, in place: it is truthy and does not trim to the empty
    string, so the placeholder sentence is not put in. *)
Lemma continue_unparsable_body host st raw :
  JSON_parse host raw = None ->
  ok {| status := st; text := Normal raw |} = true ->
  try_catch (continue_settled host (Responded {| status := st; text := Normal raw |}))
            (fun _ => Ret server_fallback)
  = Ret {| code := 200; json := obj [ ("text", VStr ellipsis) ] |}.
Proof.
  intros P O. cbn [continue_settled text lift pbind]. rewrite O. cbn [negb].
  unfold extract_text. rewrite P. reflexivity.
Qed.

(** The same holds for a body that parses to a value with no truthy
    [output_text] and no truthy [output]. *)
Lemma continue_no_text_fields host st raw data :
  JSON_parse host raw = Some data ->
  nullish data = false ->
  truthy (get_prop data (prop "output_text")) = false ->
  truthy (get_prop data (prop "output")) = false ->
  ok {| status := st; text := Normal raw |} = true ->
  try_catch (continue_settled host (Responded {| status := st; text := Normal raw |}))
            (fun _ => Ret server_fallback)
  = Ret {| code := 200; json := obj [ ("text", VStr ellipsis) ] |}.
Proof.
  intros P N T1 T2 O. cbn [continue_settled text lift pbind]. rewrite O. cbn [negb].
  unfold extract_text, Get. rewrite P. cbn [bind]. rewrite N. cbn [bind].
  rewrite T1, T2. reflexivity.
Qed.

(** C2 at its failing input: the upstream answers 200 with the body [{}],
    which has neither text field (or with a body that is no JSON at all), and
    the handler replies with the ellipsis, which is not the placeholder
    sentence. *)
Lemma continue_missing_text_keeps_ellipsis :
  snd (run (upstream 200 (js "{}")) (continue_handler sample_host (obj []))) =
    Normal {| code := 200; json := obj [ ("text", VStr ellipsis) ] |} /\
  snd (run (upstream 200 (js "<html>")) (continue_handler sample_host (obj []))) =
    Normal {| code := 200; json := obj [ ("text", VStr ellipsis) ] |} /\
  VStr ellipsis <> VStr FALLBACK.
Proof.
  split; [vm_compute; reflexivity|]. split; [vm_compute; reflexivity|]. discriminate.
Qed.

(** ** The share handler *)

(** C10. Whenever the share handler sends a row to the store, the [drama] of
    that row (the object handed to JSON.stringify) is [Number(drama)] when
    that number is truthy and 3 otherwise: an absent drama, a zero and a
    drama whose number is NaN are stored as 3, and any other number (9, say)
    is stored as it is, with no clamping to the levels 1 to 5. *)
Theorem share_stored_drama (host : Host) (body : value) (c : call) :
  first_call (share_handler host body) = Some c ->
  let drama := get_prop body (prop "drama") in
  exists url headers row n,
    c = Fetch url (js "POST") headers (Some (VArr [row])) /\
    ToNumber host drama = Normal n /\
    get_prop row (prop "drama") = VNum (if truthy (VNum n) then n else 3%float) /\
    (PrimFloat.is_nan n || PrimFloat.is_zero n = true ->
       get_prop row (prop "drama") = VNum 3%float) /\
    (drama = VUndefined -> get_prop row (prop "drama") = VNum 3%float) /\
    (forall x, drama = VNum x ->
       get_prop row (prop "drama") = VNum (if truthy (VNum x) then x else 3%float)).
Proof.
  intros H drama. revert H.
  unfold share_handler, share_body, Get.
  destruct (nullish body); [discriminate|]. cbn [lift pbind].
  destruct (negb (truthy (get_prop body (prop "title"))) ||
            negb (truthy (get_prop body (prop "content")))); [discriminate|].
  destruct (share_row host _ _ _ _ _) as [row|e] eqn:R; [|discriminate].
  cbn [lift pbind]. unfold sb.
  destruct (configured (SUPABASE_URL host)) as [base|]; [|discriminate].
  destruct (configured (SUPABASE_SERVICE_ROLE host)) as [role|]; [|discriminate].
  cbn [pbind try_catch first_call]. intros H. inversion H; subst c. clear H.
  unfold share_row in R. fold drama in R.
  destruct (sanitizeText (get_prop body (prop "title"))) as [title'|]; [|discriminate].
  cbn [bind] in R.
  destruct (sanitizeText (or_else _ _)) as [mood'|]; [|discriminate]. cbn [bind] in R.
  destruct (ToNumber host drama) as [n|] eqn:TN; [|discriminate]. cbn [bind] in R.
  destruct (sanitizeText (get_prop body (prop "content"))) as [content'|]; [|discriminate].
  cbn [bind] in R.
  destruct (sanitizeText (or_else _ _)) as [author'|]; [|discriminate]. cbn [bind] in R.
  inversion R; subst row. clear R.
  assert (D : get_prop
                (obj [ ("title", title'); ("mood", mood');
                       ("drama", or_else (VNum n) (VNum 3%float));
                       ("content", content'); ("author", author') ])
                (prop "drama")
              = VNum (if truthy (VNum n) then n else 3%float)).
  { change (or_else (VNum n) (VNum 3%float) = VNum (if truthy (VNum n) then n else 3%float)).
    unfold or_else. now destruct (truthy (VNum n)). }
  do 4 eexists. split; [reflexivity|]. split; [reflexivity|]. split; [exact D|].
  split; [|split].
  - intros Z. rewrite D. cbn [truthy]. now rewrite Z.
  - intros E. rewrite E in TN. inversion TN; subst n. exact D.
  - intros x E. rewrite E in TN. inversion TN; subst n. exact D.
Qed.

Lemma share_stored_drama_witness :
  exists c row,
    first_call
      (share_handler sample_host
         (obj [ ("title", str "A door"); ("content", str "It opens.");
                ("drama", VNum 9%float) ])) = Some c /\
    (exists url headers, c = Fetch url (js "POST") headers (Some (VArr [row]))) /\
    get_prop row (prop "drama") = VNum 9%float.
Proof.
  destruct (@share_stored_drama sample_host
              (obj [ ("title", str "A door"); ("content", str "It opens.");
                     ("drama", VNum 9%float) ])
              _ eq_refl) as (url & headers & row & n & E & _ & _ & _ & _ & D).
  eexists. exists row. split; [reflexivity|]. split; [|exact (D 9%float eq_refl)].
  exists url, headers. exact E.
Defined.

(** * Further properties *)

(** ** More on the sanitizer *)

Lemma is_vowel_spec c : is_vowel c = true <-> In c (js "aeiouAEIOU").
Proof.
  split.
  - unfold is_vowel. rewrite existsb_exists. intros (v & Iv & S).
    unfold same_char in S. apply N.eqb_eq in S.
    assert (K : canonicalize c = 65 \/ canonicalize c = 69 \/ canonicalize c = 73 \/
                canonicalize c = 79 \/ canonicalize c = 85).
    { rewrite S. simpl in Iv.
      repeat (destruct Iv as [<-|Iv]; [vm_compute; tauto|]). contradiction. }
    clear S Iv v. unfold canonicalize in K.
    destruct ((97 <=? c) && (c <=? 122)) eqn:R; bools; simpl.
    + assert (c = 97 \/ c = 101 \/ c = 105 \/ c = 111 \/ c = 117) as Hc by lia.
      repeat (destruct Hc as [->|Hc]; [tauto|]). subst c. tauto.
    + repeat (destruct K as [->|K]; [tauto|]). subst c. tauto.
    + repeat (destruct K as [->|K]; [tauto|]). subst c. tauto.
  - simpl. intros H. repeat (destruct H as [<-|H]; [reflexivity|]). contradiction.
Qed.

(** X1. [maskWord] works on any string, code unit by code unit: the ten
    ASCII vowels become asterisks and every other code unit stays, so the
    length stays too. *)
Theorem maskWord_pointwise (w : jsstring) :
  length (maskWord w) = length w /\
  forall i c, nth_error w i = Some c ->
    (In c (js "aeiouAEIOU") -> nth_error (maskWord w) i = Some asterisk) /\
    (~ In c (js "aeiouAEIOU") -> nth_error (maskWord w) i = Some c).
Proof.
  rewrite maskWord_map. split; [apply length_map|].
  intros i c Hi. rewrite nth_error_map, Hi. cbn [option_map]. unfold mask_char.
  pose proof (is_vowel_spec c) as V. destruct (is_vowel c).
  - split; [reflexivity|]. intros N. elim N. now apply V.
  - split; [|reflexivity]. intros I. apply V in I. discriminate.
Qed.

(** [maskWord] applied twice is [maskWord] applied once. *)
Lemma maskWord_twice w : maskWord (maskWord w) = maskWord w.
Proof.
  rewrite !maskWord_map, map_map. apply map_ext. intros c.
  unfold mask_char at 1. now rewrite mask_char_not_vowel.
Qed.

Lemma no_vowel_app a b : no_vowel (a ++ b) = no_vowel a && no_vowel b.
Proof. unfold no_vowel. apply forallb_app. Qed.

(** No occurrence starts inside a stretch without vowels. *)
Lemma in_banned_word_after_no_vowel terms m0 s i :
  forallb good_term terms = true ->
  no_vowel m0 = true -> is_word_at (hd_error s) = false ->
  in_banned_word terms (m0 ++ s) i ->
  exists j, i = (length m0 + j)%nat /\ in_banned_word terms s j.
Proof.
  intros G NV B (t & a & I & (pre & m & post & E & La & C & Bl & Br) & R).
  destruct (ci_eqb_good _ _ (good_in _ _ G I) C) as (Hne & L & V).
  pose proof (occurrence_starts_with_letter _ _ m post G I C) as X.
  symmetry in E. apply app_eq_app in E as [l [[E1 E2]|[E1 E2]]].
  - assert (Hl : l <> []).
    { intros ->. simpl in E2. rewrite E2 in B. congruence. }
    subst pre. rewrite length_app in La. exists (i - length m0)%nat. split; [lia|].
    exists t, (length l). repeat split; [assumption| |lia|lia].
    exists l, m, post. repeat split; try assumption.
    now rewrite last_opt_app in Bl.
  - exfalso. subst m0. rewrite no_vowel_app in NV. apply andb_true_iff in NV as [_ NV].
    exact (vowel_clash m post l s E2 L V NV B).
Qed.

(** After the loop no whole-word occurrence of a term is left. *)
Lemma sanitize_with_clean terms :
  forallb good_term terms = true ->
  forall s i, ~ in_banned_word terms (sanitize_with terms s) i.
Proof.
  intros G s. pattern s. apply run_ind; clear s;
    [|intros c0 s W IH|intros w s Hne W B IH]; intros i.
  - rewrite sanitize_with_nil_text by assumption.
    intros (t & a & I & (pre & m & post & E & La & C & _) & R).
    destruct (ci_eqb_good _ _ (good_in _ _ G I) C) as (Hm & _).
    symmetry in E. apply app_eq_nil in E as [_ E]. apply app_eq_nil in E as [E _]. congruence.
  - rewrite sanitize_with_nonword by assumption. destruct i as [|i].
    + now apply not_in_banned_word_sep.
    + rewrite in_banned_word_sep by assumption. apply IH.
  - rewrite sanitize_with_run by assumption.
    pose proof (sanitize_with_boundary terms s G B) as B'.
    destruct (listed terms w) eqn:Lw; cbn [mask_if].
    + intros H. apply in_banned_word_after_no_vowel in H as (j & _ & H);
        auto using no_vowel_masked. exact (IH j H).
    + destruct (Nat.lt_ge_cases i (length w)) as [Lt|Le].
      * rewrite in_banned_word_run by assumption. congruence.
      * replace i with (length w + (i - length w))%nat by lia.
        rewrite in_banned_word_after_run by assumption. apply IH.
Qed.

(** X2. The string [sanitizeText] returns holds no whole-word occurrence of
    a banned term, whatever the case: what is stored or sent is clean. *)
Theorem sanitizeText_leaves_no_banned_word (s : jsstring) :
  exists out,
    sanitizeText (VStr s) = Normal (VStr out) /\
    forall i, ~ in_banned_word BAD_WORDS out i.
Proof.
  exists (sanitize_with BAD_WORDS s). split; [apply sanitizeText_string|].
  apply (@sanitize_with_clean BAD_WORDS BAD_WORDS_good).
Qed.

(** A text without occurrences goes through the loop unchanged. *)
Lemma sanitize_with_fixed terms s :
  forallb good_term terms = true ->
  (forall i, ~ in_banned_word terms s i) -> sanitize_with terms s = s.
Proof.
  intros G H. apply nth_error_ext. intros i.
  destruct (nth_error s i) as [c|] eqn:Hi.
  - now apply (@sanitize_with_pointwise terms G s i c Hi).
  - apply nth_error_None. rewrite (@sanitize_with_length terms G).
    now apply nth_error_None.
Qed.

(** The string inside a normal string result. *)
Lemma Normal_VStr_inj (a b : jsstring) : Normal (VStr a) = Normal (VStr b) -> a = b.
Proof.
  intros H.
  exact (f_equal (fun c => match c with Normal (VStr x) => x | _ => a end) H).
Qed.

(** X3. The strings [sanitizeText] leaves as they are are exactly the
    strings without a whole-word occurrence of a banned term. *)
Theorem sanitizeText_fixed_points (s : jsstring) :
  sanitizeText (VStr s) = Normal (VStr s) <-> (forall i, ~ in_banned_word BAD_WORDS s i).
Proof.
  split.
  - intros E i.
    assert (S : Normal (VStr (sanitize_with BAD_WORDS s)) = Normal (VStr s))
      by (transitivity (sanitizeText (VStr s));
          [symmetry; apply sanitizeText_string | exact E]).
    apply Normal_VStr_inj in S.
    pose proof (@sanitize_with_clean BAD_WORDS BAD_WORDS_good s i) as K.
    rewrite S in K. exact K.
  - intros H. transitivity (Normal (VStr (sanitize_with BAD_WORDS s)));
      [apply sanitizeText_string|].
    do 2 f_equal. exact (@sanitize_with_fixed BAD_WORDS s BAD_WORDS_good H).
Qed.

(** The loop only depends on which runs of word characters are listed. *)
Lemma sanitize_with_ext terms terms' :
  forallb good_term terms = true -> forallb good_term terms' = true ->
  (forall w, listed terms w = listed terms' w) ->
  forall s, sanitize_with terms s = sanitize_with terms' s.
Proof.
  intros G G' H s. pattern s. apply run_ind; clear s;
    [|intros c0 s W IH|intros w s Hne W B IH].
  - now rewrite !sanitize_with_nil_text.
  - rewrite !sanitize_with_nonword by assumption. now rewrite IH.
  - rewrite !sanitize_with_run by assumption. now rewrite IH, H.
Qed.

(** X4. The order of the terms in the list, and a term listed twice, make no
    difference: a list with the same terms gives the same result on every
    text. *)
Theorem sanitize_with_any_order (terms : list jsstring) (s : jsstring) :
  (forall t, In t terms <-> In t BAD_WORDS) ->
  sanitize_with terms s = sanitize_with BAD_WORDS s.
Proof.
  intros H. apply sanitize_with_ext.
  - apply forallb_forall. intros t I. apply H in I.
    now apply (good_in _ _ BAD_WORDS_good).
  - exact BAD_WORDS_good.
  - intros w. unfold listed.
    destruct (existsb (ci_eqb w) BAD_WORDS) eqn:E.
    + apply existsb_exists in E as (t & I & C). apply existsb_exists.
      exists t. split; [now apply H | exact C].
    + destruct (existsb (ci_eqb w) terms) eqn:E'; [|reflexivity].
      apply existsb_exists in E' as (t & I & C).
      assert (X : existsb (ci_eqb w) BAD_WORDS = true)
        by (apply existsb_exists; exists t; split; [now apply H | exact C]).
      congruence.
Qed.

Lemma sanitize_with_any_order_witness :
  sanitize_with (rev BAD_WORDS) (js "shit, you fucking bastard")
  = sanitize_with BAD_WORDS (js "shit, you fucking bastard").
Proof.
  apply (@sanitize_with_any_order (rev BAD_WORDS) (js "shit, you fucking bastard")).
  intros t. symmetry. apply in_rev.
Defined.

Lemma sanitize_with_separator terms : forall a c b,
  forallb good_term terms = true -> is_word_char c = false ->
  sanitize_with terms (a ++ c :: b) = sanitize_with terms a ++ c :: sanitize_with terms b.
Proof.
  intros a c b G W. pattern a. apply run_ind; clear a;
    [|intros c0 a W0 IH|intros w a Hne Ww B IH]; cbv beta in *.
  - rewrite sanitize_with_nil_text by assumption. now apply sanitize_with_nonword.
  - change ((c0 :: a) ++ c :: b) with (c0 :: (a ++ c :: b)).
    rewrite !sanitize_with_nonword by assumption. now rewrite IH.
  - rewrite <- app_assoc.
    rewrite (@sanitize_with_run terms w (a ++ c :: b)); try assumption.
    + rewrite (@sanitize_with_run terms w a); try assumption.
      now rewrite IH, app_assoc.
    + destruct a; [exact W | exact B].
Qed.

(** X5. Texts joined by a code unit that is no word character (a space, a
    comma, a line break) are sanitized part by part. *)
Theorem sanitizeText_part_by_part (a b a' b' : jsstring) (c : N) :
  is_word_char c = false ->
  sanitizeText (VStr a) = Normal (VStr a') ->
  sanitizeText (VStr b) = Normal (VStr b') ->
  sanitizeText (VStr (a ++ c :: b)) = Normal (VStr (a' ++ c :: b')).
Proof.
  intros W Ha Hb.
  assert (Ea : Normal (VStr (sanitize_with BAD_WORDS a)) = Normal (VStr a'))
    by (transitivity (sanitizeText (VStr a)); [symmetry; apply sanitizeText_string | exact Ha]).
  assert (Eb : Normal (VStr (sanitize_with BAD_WORDS b)) = Normal (VStr b'))
    by (transitivity (sanitizeText (VStr b)); [symmetry; apply sanitizeText_string | exact Hb]).
  apply Normal_VStr_inj in Ea, Eb.
  transitivity (Normal (VStr (sanitize_with BAD_WORDS (a ++ c :: b))));
    [apply sanitizeText_string|].
  do 2 f_equal. rewrite <- Ea, <- Eb.
  apply sanitize_with_separator; [exact BAD_WORDS_good | exact W].
Qed.

Lemma sanitizeText_part_by_part_witness :
  sanitizeText (str "You bitch, shut up") = Normal (str "You b*tch, shut up").
Proof.
  apply (@sanitizeText_part_by_part (js "You bitch") (js " shut up")
           (js "You b*tch") (js " shut up") 44); reflexivity.
Defined.

(** ** More on the narration handler *)

Lemma switch_in {A} (s : jsstring) (cases : list (string * A)) (d : A) :
  In (switch s cases d) (d :: map snd cases).
Proof.
  induction cases as [|[c a] cases IH]; [left; reflexivity|].
  cbn [switch map snd]. destruct (jsstring_eqb s (js c)).
  - right. left. reflexivity.
  - destruct IH as [IH|IH]; [left; exact IH | right; right; exact IH].
Qed.

(** X6. Whatever the request holds, the body of the POST sent to the
    completion service (the object handed to JSON.stringify) names the model
    gpt-4o-mini, caps the output at 220 tokens and carries one of the five
    temperatures of the table. *)
Theorem continue_payload_settings (host : Host) (body : value) (c : call) :
  first_call (continue_handler host body) = Some c ->
  exists headers payload t,
    c = Fetch (js "https://api.openai.com/v1/responses") (js "POST") headers (Some payload) /\
    get_prop payload (prop "model") = str "gpt-4o-mini" /\
    get_prop payload (prop "max_output_tokens") = VNum 220%float /\
    get_prop payload (prop "temperature") = VNum t /\
    In t [0.4; 0.55; 0.7; 0.85; 1.0]%float.
Proof.
  rewrite continue_handler_unfold.
  destruct (continue_payload host body) as [payload|e] eqn:P; [|discriminate].
  cbn [first_call]. intros H. inversion H; subst c. clear H.
  unfold continue_payload, Get in P.
  destruct (nullish body); [discriminate|]. cbn [bind] in P.
  destruct (styleMood host _) as [clause|]; [|discriminate]. cbn [bind] in P.
  destruct (dramaInstructions host _) as [instructions|]; [|discriminate]. cbn [bind] in P.
  destruct (iterate _) as [entries|]; [|discriminate]. cbn [bind] in P.
  destruct (mapDramaToTemp host _) as [t|] eqn:MT; [|discriminate]. cbn [bind] in P.
  inversion P; subst payload. clear P.
  do 3 eexists. split; [reflexivity|]. repeat split.
  unfold mapDramaToTemp in MT. destruct (ToString host _) as [s|]; [|discriminate].
  cbn [bind] in MT. injection MT as <-.
  pose proof (switch_in s
                [ ("1", 0.4); ("2", 0.55); ("3", 0.7); ("4", 0.85); ("5", 1.0) ]%float
                0.7%float) as I.
  cbn [map snd] in I. destruct I as [I|I]; [|exact I].
  cbn [switch] in I. rewrite <- I. right. right. left. reflexivity.
Qed.

Lemma continue_payload_settings_witness :
  exists headers payload,
    first_call (continue_handler sample_host sample_request)
      = Some (Fetch (js "https://api.openai.com/v1/responses") (js "POST") headers
                (Some payload)) /\
    get_prop payload (prop "model") = str "gpt-4o-mini" /\
    get_prop payload (prop "max_output_tokens") = VNum 220%float /\
    get_prop payload (prop "temperature") = VNum 0.85%float.
Proof.
  destruct (@continue_payload_settings sample_host sample_request _ eq_refl)
    as (headers & payload & t & E & M & K & T & _).
  exists headers, payload. split; [exact (f_equal Some E)|].
  split; [exact M|]. split; [exact K|].
  inversion E. subst payload. reflexivity.
Defined.

(** X7. A request whose body is null or undefined, or whose history is
    neither an array nor a string, is answered with the server fallback and
    nothing is sent to the completion service. *)
Theorem continue_malformed_request (host : Host) (body : value) (world : call -> answer) :
  nullish body = true \/
  iterable (or_default (get_prop body (prop "history")) (VArr [])) = false ->
  run world (continue_handler host body) = ([], Normal server_fallback).
Proof.
  intros H. rewrite continue_handler_unfold.
  assert (P : exists e, continue_payload host body = Throw e).
  { unfold continue_payload, Get. destruct (nullish body) eqn:Nb; [eexists; reflexivity|].
    destruct H as [H|H]; [discriminate|]. cbn [bind].
    destruct (styleMood host _) as [clause|e]; [|eexists; reflexivity]. cbn [bind].
    destruct (dramaInstructions host _) as [i|e]; [|eexists; reflexivity]. cbn [bind].
    destruct (or_default (get_prop body (prop "history")) (VArr [])); try discriminate;
      eexists; reflexivity. }
  destruct P as (e & ->). reflexivity.
Qed.

Lemma continue_malformed_request_witness :
  run (upstream 200 sample_body)
      (continue_handler sample_host (obj [ ("history", VNum 5%float) ]))
  = ([], Normal server_fallback).
Proof.
  apply continue_malformed_request. right. reflexivity.
Defined.

Lemma run_continue_settled host body world c r :
  first_call (continue_handler host body) = Some c ->
  try_catch (continue_settled host (world c)) (fun _ => Ret server_fallback) = Ret r ->
  run world (continue_handler host body) = ([c], Normal r).
Proof.
  rewrite continue_handler_unfold.
  destruct (continue_payload host body) as [p|e]; [|discriminate].
  cbn [first_call run]. intros H K. inversion H; subst c. now rewrite K.
Qed.

Lemma trim_start_blank s : forallb is_white_space s = true -> trim_start s = [].
Proof.
  induction s as [|c s IH]; [reflexivity|]. cbn [forallb trim_start]. intros H.
  apply andb_true_iff in H as [Hc Hs]. rewrite Hc. auto.
Qed.

Lemma trim_blank s : forallb is_white_space s = true -> trim s = [].
Proof. intros H. unfold trim. now rewrite (trim_start_blank s H). Qed.

Lemma trim_not_empty s : trim s <> [] -> s <> [].
Proof. intros H ->. now apply H. Qed.

Lemma status_ok st raw :
  (200 <= st <= 299) -> ok {| status := st; text := Normal raw |} = true.
Proof.
  intros [L U]. unfold ok. cbn [status].
  apply andb_true_iff. split; now apply N.leb_le.
Qed.

Lemma get_prop_string_not_nullish v k s : get_prop v k = VStr s -> nullish v = false.
Proof. destruct v; try reflexivity; discriminate. Qed.

(** What the handler replies once a text has been read out of the body. *)
Lemma continue_settled_with_text host st raw s :
  (200 <= st <= 299) ->
  extract_text host raw (VStr ellipsis) = VStr s -> s <> [] ->
  try_catch (continue_settled host (answered st raw)) (fun _ => Ret server_fallback)
  = Ret {| code := 200;
           json := obj [ ("text",
                          VStr (sanitize_with BAD_WORDS
                                  (if jsstring_eqb (trim s) [] then FALLBACK else s))) ] |}.
Proof.
  intros O E Hs. unfold answered. cbn [continue_settled text lift pbind].
  rewrite (status_ok raw O). cbn [negb]. rewrite E.
  unfold or_fallback. destruct s as [|x s]; [congruence|]. cbn [truthy negb call_trim bind].
  destruct (jsstring_eqb (trim (x :: s)) []); cbn [lift pbind];
    rewrite sanitizeText_string; reflexivity.
Qed.

Lemma extract_output_text host raw data s :
  JSON_parse host raw = Some data ->
  get_prop data (prop "output_text") = VStr s -> s <> [] ->
  extract_text host raw (VStr ellipsis) = VStr s.
Proof.
  intros P T Hs. unfold extract_text, Get. rewrite P. cbn [bind].
  rewrite (get_prop_string_not_nullish _ _ T). cbn [bind]. rewrite T.
  destruct s; [congruence | reflexivity].
Qed.

(** X8. When the body of a successful answer parses and its [output_text]
    is a string with something other than white space in it, the reply is
    that string, sanitized, whatever else the body holds. *)
Theorem continue_output_text (host : Host) (body : value) (world : call -> answer)
    (c : call) (st : N) (raw : jsstring) (data : value) (s : jsstring) :
  first_call (continue_handler host body) = Some c ->
  world c = answered st raw -> (200 <= st <= 299) ->
  JSON_parse host raw = Some data ->
  get_prop data (prop "output_text") = VStr s -> trim s <> [] ->
  run world (continue_handler host body) =
    ([c], Normal {| code := 200;
                    json := obj [ ("text", VStr (sanitize_with BAD_WORDS s)) ] |}).
Proof.
  intros F W O P T B. apply run_continue_settled; [exact F|]. rewrite W.
  pose proof (trim_not_empty B) as Hs.
  rewrite (@continue_settled_with_text host st raw s O
             (@extract_output_text host raw data s P T Hs) Hs).
  now rewrite (jsstring_eqb_neq B).
Qed.

Lemma continue_output_text_witness :
  exists c,
    run (upstream 200 sample_body) (continue_handler sample_host sample_request) =
    ([c], Normal {| code := 200; json := obj [ ("text", str "The door creaks open.") ] |}).
Proof.
  eexists.
  apply (@continue_output_text sample_host sample_request (upstream 200 sample_body)
           _ 200 sample_body (obj [ ("output_text", str "The door creaks open.") ])
           (js "The door creaks open."));
    try reflexivity; [split; discriminate | discriminate].
Defined.

(** X9. When the [output_text] of a successful answer is a string made of
    white space only, the reply is the placeholder sentence. *)
Theorem continue_blank_output_text (host : Host) (body : value) (world : call -> answer)
    (c : call) (st : N) (raw : jsstring) (data : value) (s : jsstring) :
  first_call (continue_handler host body) = Some c ->
  world c = answered st raw -> (200 <= st <= 299) ->
  JSON_parse host raw = Some data ->
  get_prop data (prop "output_text") = VStr s ->
  s <> [] -> forallb is_white_space s = true ->
  run world (continue_handler host body) =
    ([c], Normal {| code := 200; json := obj [ ("text", VStr FALLBACK) ] |}).
Proof.
  intros F W O P T Hs B. apply run_continue_settled; [exact F|]. rewrite W.
  rewrite (@continue_settled_with_text host st raw s O
             (@extract_output_text host raw data s P T Hs) Hs).
  rewrite (trim_blank s B). reflexivity.
Qed.

Lemma continue_blank_output_text_witness :
  exists c,
    run (upstream 200 (js "blank"))
        (continue_handler
           (parsing_host [ (js "blank", obj [ ("output_text", VStr [32; 10; 9]) ]) ])
           sample_request) =
    ([c], Normal {| code := 200; json := obj [ ("text", VStr FALLBACK) ] |}).
Proof.
  eexists.
  apply (@continue_blank_output_text
           (parsing_host [ (js "blank", obj [ ("output_text", VStr [32; 10; 9]) ]) ])
           sample_request (upstream 200 (js "blank")) _ 200 (js "blank")
           (obj [ ("output_text", VStr [32; 10; 9]) ]) [32; 10; 9]);
    try reflexivity; [split; discriminate | discriminate].
Defined.

Lemma opt_get_get_prop v k : opt_get v k = get_prop v k.
Proof. now destruct v. Qed.

Lemma get_prop_not_nullish v k : nullish (get_prop v k) = false -> nullish v = false.
Proof. destruct v; try reflexivity; discriminate. Qed.

Lemma get_name_object v n : nullish (get_prop v (Name n)) = false -> exists ps, v = VObj ps.
Proof. destruct v; try discriminate. eauto. Qed.

Lemma get_index_object v i ps : get_prop v (Index i) = VObj ps -> truthy v = true.
Proof.
  destruct v; try discriminate; try reflexivity.
  cbn [get_prop]. destruct (nth_error s i); discriminate.
Qed.

Lemma extract_nested_text host raw data s :
  JSON_parse host raw = Some data ->
  nullish data = false ->
  truthy (get_prop data (prop "output_text")) = false ->
  nested_text data = VStr s ->
  s <> [] ->
  extract_text host raw (VStr ellipsis) = VStr s.
Proof.
  intros P Nd F T Hs. unfold nested_text in T.
  unfold extract_text, Get. rewrite P. cbn [bind].
  rewrite Nd. cbn [bind]. rewrite F.
  set (output := get_prop data (prop "output")) in *.
  set (first := get_prop output (Index 0)) in *.
  set (content := get_prop first (prop "content")) in *.
  set (item := get_prop content (Index 0)) in *.
  pose proof (get_prop_string_not_nullish _ _ T) as Ni.
  pose proof (get_prop_not_nullish _ _ Ni) as Nc.
  pose proof (get_prop_not_nullish _ _ Nc) as Nf.
  pose proof (get_prop_not_nullish _ _ Nf) as No.
  destruct (get_name_object _ _ Nc) as (ps & Ef).
  pose proof (get_index_object output 0 Ef) as To.
  rewrite No. cbn [bind]. rewrite To. rewrite !opt_get_get_prop.
  fold first. fold content. fold item. rewrite T.
  assert (Ts : truthy (VStr s) = true) by (destruct s; [congruence | reflexivity]).
  rewrite Ts. rewrite Nf. cbn [bind]. fold content. rewrite Nc. cbn [bind].
  fold item. rewrite Ni. cbn [bind]. exact T.
Qed.

(** X10. When a successful answer has no truthy [output_text] but its
    [output[0].content[0].text] is a string with something other than white
    space in it, the reply is that string, sanitized. *)
Theorem continue_nested_text (host : Host) (body : value) (world : call -> answer)
    (c : call) (st : N) (raw : jsstring) (data : value) (s : jsstring) :
  first_call (continue_handler host body) = Some c ->
  world c = answered st raw -> (200 <= st <= 299) ->
  JSON_parse host raw = Some data -> nullish data = false ->
  truthy (get_prop data (prop "output_text")) = false ->
  nested_text data = VStr s ->
  trim s <> [] ->
  run world (continue_handler host body) =
    ([c], Normal {| code := 200;
                    json := obj [ ("text", VStr (sanitize_with BAD_WORDS s)) ] |}).
Proof.
  intros F W O P Nd Fo T B. apply run_continue_settled; [exact F|]. rewrite W.
  pose proof (trim_not_empty B) as Hs.
  rewrite (@continue_settled_with_text host st raw s O
             (@extract_nested_text host raw data s P Nd Fo T Hs) Hs).
  now rewrite (jsstring_eqb_neq B).
Qed.

Lemma continue_nested_text_witness :
  exists c,
    run (upstream 200 (js "nested"))
        (continue_handler (parsing_host [ (js "nested", nested_body) ]) sample_request) =
    ([c], Normal {| code := 200; json := obj [ ("text", str "You sh*t yourself.") ] |}).
Proof.
  eexists.
  apply (@continue_nested_text (parsing_host [ (js "nested", nested_body) ])
           sample_request (upstream 200 (js "nested")) _ 200 (js "nested")
           nested_body (js "You shit yourself."));
    try reflexivity; [split; discriminate | discriminate].
Defined.

(** X11. When the [output_text] of a successful answer is truthy and is not
    a string (a number, true, an array, an object), the handler fails on
    [text.trim] and replies with the server fallback, status 500. *)
Theorem continue_output_text_not_a_string (host : Host) (body : value)
    (world : call -> answer) (c : call) (st : N) (raw : jsstring) (data : value) :
  first_call (continue_handler host body) = Some c ->
  world c = answered st raw -> (200 <= st <= 299) ->
  JSON_parse host raw = Some data -> nullish data = false ->
  truthy (get_prop data (prop "output_text")) = true ->
  (forall s, get_prop data (prop "output_text") <> VStr s) ->
  run world (continue_handler host body) = ([c], Normal server_fallback).
Proof.
  intros F W O P Nd T NS. apply run_continue_settled; [exact F|]. rewrite W.
  unfold answered. cbn [continue_settled text lift pbind].
  rewrite (status_ok raw O). cbn [negb].
  unfold extract_text, Get. rewrite P. cbn [bind]. rewrite Nd. cbn [bind]. rewrite T.
  unfold or_fallback. rewrite T. cbn [negb].
  destruct (get_prop data (prop "output_text")) as [| |b|n|s|l|ps] eqn:E;
    try reflexivity; try discriminate.
  now elim (NS s).
Qed.

Lemma continue_output_text_not_a_string_witness :
  exists c,
    run (upstream 200 (js "number"))
        (continue_handler
           (parsing_host [ (js "number", obj [ ("output_text", VNum 42%float) ]) ])
           sample_request) =
    ([c], Normal server_fallback).
Proof.
  eexists.
  apply (@continue_output_text_not_a_string
           (parsing_host [ (js "number", obj [ ("output_text", VNum 42%float) ]) ])
           sample_request (upstream 200 (js "number")) _ 200 (js "number")
           (obj [ ("output_text", VNum 42%float) ]));
    try reflexivity; [split; discriminate | discriminate].
Defined.

(** X12. When the request to the completion service is rejected, or the
    body of its answer cannot be read, the handler replies with the server
    fallback after that one request. *)
Theorem continue_request_failed (host : Host) (body : value) (world : call -> answer)
    (c : call) :
  first_call (continue_handler host body) = Some c ->
  (exists e, world c = Rejected e) \/
  (exists resp e, world c = Responded resp /\ text resp = Throw e) ->
  run world (continue_handler host body) = ([c], Normal server_fallback).
Proof.
  intros F H. apply run_continue_settled; [exact F|].
  destruct H as [(e & ->)|(resp & e & -> & T)]; cbn [continue_settled try_catch];
    [reflexivity|]. now rewrite T.
Qed.

Lemma continue_request_failed_witness :
  exists c,
    run (fun _ => Rejected (FetchError (js "socket hang up")))
        (continue_handler sample_host sample_request) =
    ([c], Normal server_fallback).
Proof.
  eexists.
  apply (@continue_request_failed sample_host sample_request
           (fun _ => Rejected (FetchError (js "socket hang up"))));
    [reflexivity | left; eexists; reflexivity].
Defined.

Lemma continue_settled_success host x :
  exists r,
    try_catch (continue_settled host x) (fun _ => Ret server_fallback) = Ret r /\
    (code r = 200 -> exists t, json r = obj [ ("text", VStr (sanitize_with BAD_WORDS t)) ]).
Proof.
  destruct x as [e|resp]; cbn [continue_settled try_catch].
  - exists server_fallback. split; [reflexivity | discriminate].
  - destruct (text resp) as [raw|e]; cbn [lift pbind try_catch].
    + destruct (ok resp); cbn [negb].
      * destruct (or_fallback (extract_text host raw (VStr ellipsis))) as [v|e] eqn:F;
          cbn [lift pbind try_catch];
          [|exists server_fallback; split; [reflexivity | discriminate]].
        destruct (or_fallback_string _ F) as (t & -> & Ht).
        rewrite sanitizeText_string. cbn [lift pbind try_catch].
        eexists. split; [reflexivity|]. intros _. now exists t.
      * eexists. split; [reflexivity | discriminate].
    + exists server_fallback. split; [reflexivity | discriminate].
Qed.

(** X13. The text of every successful reply of the narration handler holds
    no whole-word occurrence of a banned term. *)
Theorem continue_reply_is_clean (host : Host) (body : value) (world : call -> answer)
    (calls : list call) (r : reply) :
  run world (continue_handler host body) = (calls, Normal r) ->
  code r = 200 ->
  exists t, json r = obj [ ("text", VStr t) ] /\
            forall i, ~ in_banned_word BAD_WORDS t i.
Proof.
  intros R Hc. apply run_continue_handler in R as [[-> E]|(c & H & -> & r' & E & K)].
  - inversion E; subst r. discriminate.
  - inversion E; subst r'. clear E.
    destruct (continue_settled_success host (world c)) as (r0 & K0 & S).
    rewrite K0 in K. injection K as ->.
    destruct (S Hc) as (t & J).
    exists (sanitize_with BAD_WORDS t). split; [exact J|].
    apply (@sanitize_with_clean BAD_WORDS BAD_WORDS_good).
Qed.

Lemma continue_reply_is_clean_witness :
  exists t,
    obj [ ("text", str "You sh*t yourself.") ] = obj [ ("text", VStr t) ] /\
    forall i, ~ in_banned_word BAD_WORDS t i.
Proof.
  exact (@continue_reply_is_clean (parsing_host [ (js "nested", nested_body) ])
           sample_request (upstream 200 (js "nested")) _
           {| code := 200; json := obj [ ("text", str "You sh*t yourself.") ] |}
           eq_refl eq_refl).
Defined.

(** ** The store and the share handler *)

Lemma Normal_inj {A} (a b : A) : Normal a = Normal b -> a = b.
Proof.
  intros H. exact (f_equal (fun c => match c with Normal x => x | Throw _ => a end) H).
Qed.

Lemma sb_configured host base role path method body :
  configured (SUPABASE_URL host) = Some base ->
  configured (SUPABASE_SERVICE_ROLE host) = Some role ->
  sb host path method body = Await (store_call base role path method body) (sb_settled host).
Proof. intros U R. unfold sb. now rewrite U, R. Qed.

Lemma sb_unconfigured host path method body :
  configured (SUPABASE_URL host) = None \/ configured (SUPABASE_SERVICE_ROLE host) = None ->
  sb host path method body = Raise (Error not_configured).
Proof.
  intros [U|R]; unfold sb.
  - now rewrite U.
  - rewrite R. now destruct (configured (SUPABASE_URL host)).
Qed.

Lemma run_silent {A} (world : call -> answer) (m : prog A) :
  first_call m = None -> fst (run world m) = [].
Proof. destruct m; try reflexivity. discriminate. Qed.

(** A truthy value that [sanitizeText] accepts is a string. *)
Lemma sanitizeText_truthy v v' :
  truthy v = true -> sanitizeText v = Normal v' ->
  exists s, v = VStr s /\ v' = VStr (sanitize_with BAD_WORDS s).
Proof.
  intros T. unfold sanitizeText. rewrite T. cbn [negb].
  destruct v; try discriminate. intros H. apply Normal_inj in H. eauto.
Qed.

Lemma sanitizeText_falsy v : truthy v = false -> sanitizeText v = Normal v.
Proof. intros T. unfold sanitizeText. now rewrite T. Qed.

(** X14. A share request without a truthy title or without a truthy content
    is answered 400 and nothing is sent to the store. *)
Theorem share_missing_fields (host : Host) (body : value) (world : call -> answer) :
  nullish body = false ->
  truthy (get_prop body (prop "title")) = false \/
  truthy (get_prop body (prop "content")) = false ->
  run world (share_handler host body) =
    ([], Normal {| code := 400; json := obj [ ("error", str "Missing title or content") ] |}).
Proof.
  intros Nb H. unfold share_handler, share_body, Get. rewrite Nb. cbn [lift pbind].
  assert (E : negb (truthy (get_prop body (prop "title"))) ||
              negb (truthy (get_prop body (prop "content"))) = true).
  { destruct H as [H|H]; rewrite H; [reflexivity | apply orb_true_r]. }
  rewrite E. reflexivity.
Qed.

Lemma share_missing_fields_witness :
  run (upstream 200 (js "{}"))
      (share_handler sample_host (obj [ ("title", str "A door"); ("content", VStr []) ])) =
    ([], Normal {| code := 400; json := obj [ ("error", str "Missing title or content") ] |}).
Proof.
  apply share_missing_fields; [reflexivity | right; reflexivity].
Defined.

(** X15. In the row the share handler sends to the store, title and content
    are the caller's strings run through the sanitizer, so is a mood or an
    author the caller gave, and an absent or empty author is "Anon", an
    absent mood the empty string. *)
Theorem share_row_is_sanitized (host : Host) (body : value) (c : call) :
  first_call (share_handler host body) = Some c ->
  let title := get_prop body (prop "title") in
  let mood := get_prop body (prop "mood") in
  let content := get_prop body (prop "content") in
  let author := get_prop body (prop "author") in
  exists url headers row t ct,
    c = Fetch url (js "POST") headers (Some (VArr [row])) /\
    title = VStr t /\ content = VStr ct /\
    get_prop row (prop "title") = VStr (sanitize_with BAD_WORDS t) /\
    get_prop row (prop "content") = VStr (sanitize_with BAD_WORDS ct) /\
    (truthy author = false -> get_prop row (prop "author") = str "Anon") /\
    (forall a, author = VStr a -> a <> [] ->
       get_prop row (prop "author") = VStr (sanitize_with BAD_WORDS a)) /\
    (truthy mood = false -> get_prop row (prop "mood") = VStr []) /\
    (forall m, mood = VStr m -> m <> [] ->
       get_prop row (prop "mood") = VStr (sanitize_with BAD_WORDS m)).
Proof.
  intros H title mood content author. revert H.
  unfold share_handler, share_body, Get.
  destruct (nullish body); [discriminate|]. cbn [lift pbind].
  fold title. fold mood. fold content. fold author.
  destruct (truthy title) eqn:Tt; [|discriminate].
  destruct (truthy content) eqn:Tc; [|discriminate]. cbn [negb orb].
  destruct (share_row host _ _ _ _ _) as [row|e] eqn:R; [|discriminate].
  cbn [lift pbind]. unfold sb.
  destruct (configured (SUPABASE_URL host)) as [base|]; [|discriminate].
  destruct (configured (SUPABASE_SERVICE_ROLE host)) as [role|]; [|discriminate].
  cbn [pbind try_catch first_call]. intros H. inversion H; subst c. clear H.
  unfold share_row in R.
  destruct (sanitizeText title) as [title'|] eqn:St; [|discriminate]. cbn [bind] in R.
  destruct (sanitizeText (or_else mood (VStr []))) as [mood'|] eqn:Sm; [|discriminate].
  cbn [bind] in R.
  destruct (ToNumber host _) as [n|]; [|discriminate]. cbn [bind] in R.
  destruct (sanitizeText content) as [content'|] eqn:Sc; [|discriminate]. cbn [bind] in R.
  destruct (sanitizeText (or_else author (str "Anon"))) as [author'|] eqn:Sa; [|discriminate].
  cbn [bind] in R. apply Normal_inj in R. subst row.
  destruct (sanitizeText_truthy _ Tt St) as (t & Et & ->).
  destruct (sanitizeText_truthy _ Tc Sc) as (ct & Ect & ->).
  do 2 eexists. exists (obj [ ("title", VStr (sanitize_with BAD_WORDS t)); ("mood", mood');
                              ("drama", or_else (VNum n) (VNum 3%float));
                              ("content", VStr (sanitize_with BAD_WORDS ct));
                              ("author", author') ]), t, ct.
  split; [reflexivity|]. split; [exact Et|]. split; [exact Ect|].
  split; [reflexivity|]. split; [reflexivity|].
  change (get_prop (obj [ ("title", VStr (sanitize_with BAD_WORDS t)); ("mood", mood');
                          ("drama", or_else (VNum n) (VNum 3%float));
                          ("content", VStr (sanitize_with BAD_WORDS ct));
                          ("author", author') ]) (prop "author")) with author'.
  change (get_prop (obj [ ("title", VStr (sanitize_with BAD_WORDS t)); ("mood", mood');
                          ("drama", or_else (VNum n) (VNum 3%float));
                          ("content", VStr (sanitize_with BAD_WORDS ct));
                          ("author", author') ]) (prop "mood")) with mood'.
  repeat split.
  - intros Fa. unfold or_else in Sa. rewrite Fa in Sa.
    apply Normal_inj in Sa. now subst author'.
  - intros a Ea Ha. unfold or_else in Sa. rewrite Ea in Sa.
    assert (Ta : truthy (VStr a) = true) by (destruct a; [congruence | reflexivity]).
    rewrite Ta in Sa. destruct (sanitizeText_truthy _ Ta Sa) as (a' & Ea' & ->).
    apply (f_equal (fun v => match v with VStr x => x | _ => a end)) in Ea'.
    cbv beta iota in Ea'. now subst a'.
  - intros Fm. unfold or_else in Sm. rewrite Fm in Sm.
    apply Normal_inj in Sm. now subst mood'.
  - intros m Em Hm. unfold or_else in Sm. rewrite Em in Sm.
    assert (Tm : truthy (VStr m) = true) by (destruct m; [congruence | reflexivity]).
    rewrite Tm in Sm. destruct (sanitizeText_truthy _ Tm Sm) as (m' & Em' & ->).
    apply (f_equal (fun v => match v with VStr x => x | _ => m end)) in Em'.
    cbv beta iota in Em'. now subst m'.
Qed.

Lemma share_row_is_sanitized_witness :
  exists url headers row,
    first_call (share_handler sample_host
                  (obj [ ("title", str "A shit day"); ("content", str "It rains.") ]))
      = Some (Fetch url (js "POST") headers (Some (VArr [row]))) /\
    get_prop row (prop "title") = str "A sh*t day" /\
    get_prop row (prop "author") = str "Anon".
Proof.
  destruct (@share_row_is_sanitized sample_host
              (obj [ ("title", str "A shit day"); ("content", str "It rains.") ])
              _ eq_refl)
    as (url & headers & row & t & ct & E & Et & _ & Rt & _ & Ra & _).
  exists url, headers, row. split; [now rewrite <- E|]. split; [|now apply Ra].
  apply (f_equal (fun v => match v with VStr x => x | _ => [] end)) in Et.
  cbv beta iota in Et. subst t. exact Rt.
Defined.

(** ** The store without its settings, and when it fails *)

Ltac prog_cases :=
  repeat (cbn [lift pbind try_catch first_call store_failure];
          match goal with
          | |- context [lift ?c] => destruct c
          | |- context [if ?b then _ else _] => destruct b
          end);
  cbn [lift pbind try_catch first_call store_failure].

(** X16. When SUPABASE_URL or SUPABASE_SERVICE_ROLE is not set, no handler of
    the storyboard and profile endpoints sends any request, whatever it is
    asked, and the list handler replies 500 with the configuration error. *)
Theorem store_not_configured (host : Host) (world : call -> answer) (arg : value) :
  configured (SUPABASE_URL host) = None \/ configured (SUPABASE_SERVICE_ROLE host) = None ->
  fst (run world (share_handler host arg)) = [] /\
  fst (run world (react_handler host arg)) = [] /\
  fst (run world (comment_handler host arg)) = [] /\
  fst (run world (comments_handler host arg)) = [] /\
  fst (run world (profile_set_handler host arg)) = [] /\
  fst (run world (profile_get_handler host arg)) = [] /\
  run world (list_handler host) =
    ([], Normal {| code := 500; json := obj [ ("error", VStr not_configured) ] |}).
Proof.
  intros H.
  repeat match goal with |- _ /\ _ => split end; try apply run_silent.
  - unfold share_handler, share_body. prog_cases; try reflexivity.
    all: rewrite (sb_unconfigured host _ _ _ H); reflexivity.
  - unfold react_handler, react_body. prog_cases; try reflexivity.
    all: rewrite (sb_unconfigured host _ _ _ H); reflexivity.
  - unfold comment_handler, comment_body. prog_cases; try reflexivity.
    all: rewrite (sb_unconfigured host _ _ _ H); reflexivity.
  - unfold comments_handler. prog_cases; try reflexivity.
    all: rewrite (sb_unconfigured host _ _ _ H); reflexivity.
  - unfold profile_set_handler. prog_cases; try reflexivity.
    all: rewrite (sb_unconfigured host _ _ _ H); reflexivity.
  - unfold profile_get_handler. prog_cases; try reflexivity.
    all: rewrite (sb_unconfigured host _ _ _ H); reflexivity.
  - unfold list_handler. rewrite (sb_unconfigured host _ _ _ H). reflexivity.
Qed.

Lemma store_not_configured_witness :
  fst (run (upstream 200 (js "{}"))
           (share_handler unconfigured_host
              (obj [ ("title", str "A door"); ("content", str "It opens.") ]))) = [] /\
  run (upstream 200 (js "{}")) (list_handler unconfigured_host) =
    ([], Normal {| code := 500; json := obj [ ("error", VStr not_configured) ] |}).
Proof.
  destruct (@store_not_configured unconfigured_host (upstream 200 (js "{}"))
              (obj [ ("title", str "A door"); ("content", str "It opens.") ])
              (or_introl eq_refl)) as (S & _ & _ & _ & _ & _ & L).
  split; assumption.
Defined.

Lemma sb_settled_ok host st raw v :
  (200 <= st <= 299) -> JSON_parse host raw = Some v ->
  sb_settled host (answered st raw) = Ret v.
Proof.
  intros O P. unfold sb_settled, answered. rewrite (status_ok raw O).
  cbn [negb text lift pbind]. now rewrite P.
Qed.

Lemma sb_settled_error host st raw :
  (st < 200 \/ 299 < st) ->
  sb_settled host (answered st raw)
  = Raise (Error (js "[Supabase " ++ digits st ++ js "] " ++ raw)).
Proof.
  intros O. unfold sb_settled, answered.
  assert (E : ok {| status := st; text := Normal raw |} = false).
  { unfold ok. cbn [status]. apply andb_false_iff.
    destruct O as [O|O]; [left | right]; now apply N.leb_gt. }
  rewrite E. reflexivity.
Qed.

(** X17. With the store configured, the list handler sends one GET for the
    30 most recent stories.  It relays whatever JSON the store answers under
    [stories], and turns an answer outside 200-299 into a 500 whose error is
    "[Supabase <status>] <body>". *)
Theorem list_handler_outcomes (host : Host) (world : call -> answer)
    (base role : jsstring) (st : N) (raw : jsstring) :
  configured (SUPABASE_URL host) = Some base ->
  configured (SUPABASE_SERVICE_ROLE host) = Some role ->
  let request :=
    store_call base role (js "/stories?select=*&order=created_at.desc&limit=30")
               (js "GET") None in
  world request = answered st raw ->
  ((200 <= st <= 299) ->
   forall rows, JSON_parse host raw = Some rows ->
     run world (list_handler host) =
       ([request], Normal {| code := 200; json := obj [ ("stories", rows) ] |})) /\
  ((st < 200 \/ 299 < st) ->
   run world (list_handler host) =
     ([request],
      Normal {| code := 500;
                json := obj [ ("error",
                               VStr (js "[Supabase " ++ digits st ++ js "] " ++ raw)) ] |})).
Proof.
  intros U R request W. unfold list_handler. rewrite (sb_configured host _ _ _ U R).
  fold request. cbn [pbind try_catch run]. rewrite W. split.
  - intros O rows P. now rewrite (@sb_settled_ok host st raw rows O P).
  - intros O. now rewrite (@sb_settled_error host st raw O).
Qed.

Lemma list_handler_outcomes_witness :
  exists request,
    run (upstream 503 (js "down")) (list_handler sample_host) =
      ([request],
       Normal {| code := 500; json := obj [ ("error", str "[Supabase 503] down") ] |}).
Proof.
  eexists.
  apply (@list_handler_outcomes sample_host (upstream 503 (js "down"))
           (js "https://db.example") (js "role") 503 (js "down") eq_refl eq_refl eq_refl).
  right. reflexivity.
Defined.

Lemma share_handler_await host body c :
  first_call (share_handler host body) = Some c ->
  share_handler host body =
  Await c (fun x =>
    try_catch
      (rows <~ sb_settled host x ;;
       items <~ lift (iterate rows) ;;
       Ret {| code := 200;
              json := obj [ ("ok", VBool true); ("story", hd VUndefined items) ] |})
      (fun e => Ret {| code := 500; json := obj [ ("error", VStr (message host e)) ] |})).
Proof.
  unfold share_handler, share_body, Get.
  destruct (nullish body); [discriminate|]. cbn [lift pbind].
  destruct (negb (truthy (get_prop body (prop "title"))) ||
            negb (truthy (get_prop body (prop "content")))); [discriminate|].
  destruct (share_row host _ _ _ _ _) as [row|e]; [|discriminate].
  cbn [lift pbind]. unfold sb.
  destruct (configured (SUPABASE_URL host)) as [base|]; [|discriminate].
  destruct (configured (SUPABASE_SERVICE_ROLE host)) as [role|]; [|discriminate].
  cbn [pbind try_catch first_call]. intros H. inversion H. reflexivity.
Qed.

(** X18. Once the share handler has sent its row, an answer of the store in
    200-299 that parses to an array gives the reply [{ok: true, story}] with
    the first row of the array (none when it is empty), and an answer outside
    200-299 gives a 500 whose error is "[Supabase <status>] <body>". *)
Theorem share_outcomes (host : Host) (body : value) (world : call -> answer) (c : call)
    (st : N) (raw : jsstring) :
  first_call (share_handler host body) = Some c ->
  world c = answered st raw ->
  ((200 <= st <= 299) ->
   forall rows, JSON_parse host raw = Some (VArr rows) ->
     run world (share_handler host body) =
       ([c], Normal {| code := 200;
                       json := obj [ ("ok", VBool true);
                                     ("story", hd VUndefined rows) ] |})) /\
  ((st < 200 \/ 299 < st) ->
   run world (share_handler host body) =
     ([c], Normal {| code := 500;
                     json := obj [ ("error",
                                    VStr (js "[Supabase " ++ digits st ++ js "] " ++ raw)) ] |})).
Proof.
  intros F W. rewrite (share_handler_await host body F). cbn [run]. rewrite W. split.
  - intros O rows P. now rewrite (@sb_settled_ok host st raw (VArr rows) O P).
  - intros O. now rewrite (@sb_settled_error host st raw O).
Qed.

Lemma share_outcomes_witness :
  exists c,
    run (upstream 409 (js "duplicate"))
        (share_handler sample_host
           (obj [ ("title", str "A door"); ("content", str "It opens.") ])) =
    ([c], Normal {| code := 500;
                    json := obj [ ("error", str "[Supabase 409] duplicate") ] |}).
Proof.
  eexists.
  apply (@share_outcomes sample_host
           (obj [ ("title", str "A door"); ("content", str "It opens.") ])
           (upstream 409 (js "duplicate")) _ 409 (js "duplicate") eq_refl eq_refl).
  right. reflexivity.
Defined.

(** ** The react handler *)

Lemma includes_like_dislike v :
  includes [1%float; (-1)%float] v = PrimFloat.eqb v 1%float || PrimFloat.eqb v (-1)%float.
Proof.
  unfold includes, same_value_zero. cbn [existsb].
  change (PrimFloat.is_nan 1%float) with false.
  change (PrimFloat.is_nan (-1)%float) with false.
  now rewrite !andb_false_r, !orb_false_r.
Qed.

(** X19. A reaction without a truthy story_id, or whose value is not the
    number 1 or -1 after [Number(value)], is answered 400 and nothing is sent
    to the store. *)
Theorem react_invalid (host : Host) (body : value) (world : call -> answer) (v : float) :
  nullish body = false ->
  ToNumber host (get_prop body (prop "value")) = Normal v ->
  truthy (get_prop body (prop "story_id")) = false \/
  (PrimFloat.eqb v 1%float = false /\ PrimFloat.eqb v (-1)%float = false) ->
  run world (react_handler host body) =
    ([], Normal {| code := 400; json := obj [ ("error", str "Invalid reaction") ] |}).
Proof.
  intros Nb Tv H. unfold react_handler, react_body, Get. rewrite Nb. cbn [lift pbind].
  rewrite Tv. cbn [lift pbind]. rewrite includes_like_dislike.
  assert (E : negb (truthy (get_prop body (prop "story_id"))) ||
              negb (PrimFloat.eqb v 1%float || PrimFloat.eqb v (-1)%float) = true).
  { destruct H as [H|[H1 H2]]; [now rewrite H|]. rewrite H1, H2. apply orb_true_r. }
  rewrite E. reflexivity.
Qed.

Lemma react_invalid_witness :
  run (upstream 200 (js "{}"))
      (react_handler sample_host (obj [ ("story_id", str "s1"); ("value", VNum 2%float) ])) =
    ([], Normal {| code := 400; json := obj [ ("error", str "Invalid reaction") ] |}).
Proof.
  apply (@react_invalid sample_host _ _ 2%float); [reflexivity | reflexivity |].
  right. split; reflexivity.
Defined.

Lemma after_sb_settled_silent host x (k : value -> prog reply) (h : error -> prog reply) :
  (forall v, first_call (try_catch (k v) h) = None) ->
  (forall e, first_call (h e) = None) ->
  first_call (try_catch (pbind (sb_settled host x) k) h) = None.
Proof.
  intros Hk Hh. destruct x as [e|res]; cbn [sb_settled pbind try_catch]; [apply Hh|].
  destruct (negb (ok res)); destruct (text res) as [t|e]; cbn [lift pbind try_catch];
    try apply Hh.
  destruct (JSON_parse host t); cbn [pbind try_catch]; [apply Hk | apply Hh].
Qed.

Lemma add_numbers host x y :
  add host (VNum x) (VNum y) = Normal (VNum (PrimFloat.add x y)).
Proof. reflexivity. Qed.

(** X20. When the store knows no story with the given id (it answers the
    read with an empty array), the react handler replies 404 after that one
    read and writes nothing. *)
Theorem react_story_not_found (host : Host) (body : value) (world : call -> answer)
    (base role id : jsstring) (v : float) (st : N) (raw : jsstring) :
  configured (SUPABASE_URL host) = Some base ->
  configured (SUPABASE_SERVICE_ROLE host) = Some role ->
  nullish body = false ->
  truthy (get_prop body (prop "story_id")) = true ->
  ToString host (get_prop body (prop "story_id")) = Normal id ->
  ToNumber host (get_prop body (prop "value")) = Normal v ->
  PrimFloat.eqb v 1%float || PrimFloat.eqb v (-1)%float = true ->
  let read := store_call base role (js "/stories?id=eq." ++ id ++ js "&select=likes,dislikes")
                         (js "GET") None in
  world read = answered st raw -> (200 <= st <= 299) ->
  JSON_parse host raw = Some (VArr []) ->
  run world (react_handler host body) =
    ([read], Normal {| code := 404; json := obj [ ("error", str "Story not found") ] |}).
Proof.
  intros U R Nb Ts Tid Tv Hv read W O P.
  unfold react_handler, react_body, Get. rewrite Nb. cbn [lift pbind].
  rewrite Tv. cbn [lift pbind]. rewrite includes_like_dislike, Ts, Hv. cbn [negb orb].
  rewrite Tid. cbn [lift pbind]. rewrite (sb_configured host _ _ _ U R). fold read.
  cbn [pbind try_catch run]. rewrite W.
  rewrite (@sb_settled_ok host st raw (VArr []) O P). reflexivity.
Qed.

Lemma react_story_not_found_witness :
  exists read,
    run (upstream 200 (js "[]"))
        (react_handler (parsing_host [ (js "[]", VArr []) ])
           (obj [ ("story_id", str "s1"); ("value", VNum 1%float) ])) =
    ([read], Normal {| code := 404; json := obj [ ("error", str "Story not found") ] |}).
Proof.
  eexists.
  apply (@react_story_not_found (parsing_host [ (js "[]", VArr []) ])
           (obj [ ("story_id", str "s1"); ("value", VNum 1%float) ])
           (upstream 200 (js "[]")) (js "https://db.example") (js "role") (js "s1")
           1%float 200 (js "[]")); try reflexivity.
  split; discriminate.
Defined.

(** X21. A like (value 1) on a story the store knows reads the story and
    then patches it with [likes] alone, one more than the number read (1 when
    the number read is 0 or NaN); a dislike (value -1) does the same with
    [dislikes] alone.  Nothing else is sent. *)
Theorem react_increments (host : Host) (body : value) (world : call -> answer)
    (base role id : jsstring) (v : float) (st : N) (raw : jsstring) (row : value) :
  configured (SUPABASE_URL host) = Some base ->
  configured (SUPABASE_SERVICE_ROLE host) = Some role ->
  nullish body = false ->
  truthy (get_prop body (prop "story_id")) = true ->
  ToString host (get_prop body (prop "story_id")) = Normal id ->
  ToNumber host (get_prop body (prop "value")) = Normal v ->
  let read := store_call base role (js "/stories?id=eq." ++ id ++ js "&select=likes,dislikes")
                         (js "GET") None in
  let patch p := store_call base role (js "/stories?id=eq." ++ id) (js "PATCH") (Some p) in
  let next k := VNum (if truthy (VNum k) then PrimFloat.add k 1%float else 1%float) in
  world read = answered st raw -> (200 <= st <= 299) ->
  JSON_parse host raw = Some (VArr [row]) ->
  (PrimFloat.eqb v 1%float = true ->
   forall k, get_prop row (prop "likes") = VNum k ->
     fst (run world (react_handler host body)) = [read; patch (obj [ ("likes", next k) ])]) /\
  (PrimFloat.eqb v 1%float = false -> PrimFloat.eqb v (-1)%float = true ->
   forall k, get_prop row (prop "dislikes") = VNum k ->
     fst (run world (react_handler host body)) = [read; patch (obj [ ("dislikes", next k) ])]).
Proof.
  intros U R Nb Ts Tid Tv read patch next W O P.
  assert (Step : forall p,
            react_patch host v (get_prop row (prop "likes")) (get_prop row (prop "dislikes"))
              = Normal p ->
            nullish row = false ->
            PrimFloat.eqb v 1%float || PrimFloat.eqb v (-1)%float = true ->
            fst (run world (react_handler host body)) = [read; patch p]).
  { intros p Hp Nr Hv.
    unfold react_handler, react_body, Get. rewrite Nb. cbn [lift pbind].
    rewrite Tv. cbn [lift pbind]. rewrite includes_like_dislike, Ts, Hv. cbn [negb orb].
    rewrite Tid. cbn [lift pbind]. rewrite (sb_configured host _ _ _ U R). fold read.
    cbn [pbind try_catch run]. rewrite W.
    rewrite (@sb_settled_ok host st raw (VArr [row]) O P).
    cbn [pbind nullish lift].
    change (truthy (length_of (VArr [row]))) with true. cbn [negb get_prop nth].
    rewrite Nr. cbn [lift pbind]. rewrite Hp. cbn [lift pbind].
    rewrite (sb_configured host _ _ _ U R). cbn [pbind try_catch run].
    match goal with
    | |- context [run world ?m] =>
        assert (S : fst (run world m) = []);
        [apply run_silent, after_sb_settled_silent;
           [intros rows; destruct (first_item rows); reflexivity | reflexivity]
        | destruct (run world m) as [cs r]; cbn [fst] in S |- *; now subst cs]
    end. }
  assert (Next : forall counter k, counter = VNum k ->
            add host (or_else counter (VNum 0%float)) (VNum 1%float) = Normal (next k)).
  { intros counter k ->. unfold or_else, next. destruct (truthy (VNum k)); reflexivity. }
  split.
  - intros V1 k Hk. apply Step.
    + unfold react_patch. rewrite V1, (Next _ k Hk). reflexivity.
    + now apply (get_prop_not_nullish row (prop "likes")); rewrite Hk.
    + now rewrite V1.
  - intros V1 V2 k Hk. apply Step.
    + unfold react_patch. rewrite V1, (Next _ k Hk). reflexivity.
    + now apply (get_prop_not_nullish row (prop "dislikes")); rewrite Hk.
    + rewrite V2. apply orb_true_r.
Qed.

Lemma react_increments_witness :
  let row := obj [ ("likes", VNum 4%float); ("dislikes", VNum 0%float) ] in
  let host := parsing_host [ (js "[row]", VArr [row]) ] in
  let sent value := fst (run (upstream 200 (js "[row]"))
                          (react_handler host (obj [ ("story_id", str "s1"); ("value", VNum value) ]))) in
  let request path method body := store_call (js "https://db.example") (js "role") path method body in
  let read := request (js "/stories?id=eq.s1&select=likes,dislikes") (js "GET") None in
  sent 1%float =
    [read; request (js "/stories?id=eq.s1") (js "PATCH") (Some (obj [ ("likes", VNum 5%float) ]))] /\
  sent (-1)%float =
    [read; request (js "/stories?id=eq.s1") (js "PATCH") (Some (obj [ ("dislikes", VNum 1%float) ]))].
Proof.
  intros row host sent request read.
  assert (O : (200 <= 200 <= 299)%N) by (split; discriminate).
  split.
  - apply (proj1 (@react_increments host (obj [ ("story_id", str "s1"); ("value", VNum 1%float) ])
             (upstream 200 (js "[row]")) (js "https://db.example") (js "role") (js "s1")
             1%float 200 (js "[row]") row
             eq_refl eq_refl eq_refl eq_refl eq_refl eq_refl eq_refl O eq_refl)
           eq_refl 4%float eq_refl).
  - apply (proj2 (@react_increments host (obj [ ("story_id", str "s1"); ("value", VNum (-1)%float) ])
             (upstream 200 (js "[row]")) (js "https://db.example") (js "role") (js "s1")
             (-1)%float 200 (js "[row]") row
             eq_refl eq_refl eq_refl eq_refl eq_refl eq_refl eq_refl O eq_refl)
           eq_refl eq_refl 0%float eq_refl).
Defined.

(** ** Comments and profiles *)

(** X22. In the one row the comment handler sends to the store, the body is
    the caller's string run through the sanitizer, the handle is the caller's
    handle run through the sanitizer or "Anon" when absent or empty, and the
    story id is the caller's value as it came. *)
Theorem comment_row_is_sanitized (host : Host) (body : value) (c : call) :
  first_call (comment_handler host body) = Some c ->
  let story_id := get_prop body (prop "story_id") in
  let handle := get_prop body (prop "handle") in
  let text := get_prop body (prop "body") in
  exists url headers row t,
    c = Fetch url (js "POST") headers (Some (VArr [row])) /\
    text = VStr t /\
    get_prop row (prop "body") = VStr (sanitize_with BAD_WORDS t) /\
    get_prop row (prop "story_id") = story_id /\
    (truthy handle = false -> get_prop row (prop "handle") = str "Anon") /\
    (forall a, handle = VStr a -> a <> [] ->
       get_prop row (prop "handle") = VStr (sanitize_with BAD_WORDS a)).
Proof.
  intros H story_id handle text. revert H.
  unfold comment_handler, comment_body, Get.
  destruct (nullish body); [discriminate|]. cbn [lift pbind].
  fold story_id. fold handle. fold text.
  destruct (truthy story_id) eqn:Ts; [|discriminate].
  destruct (truthy text) eqn:Tt; [|discriminate]. cbn [negb orb].
  destruct (sanitizeText (or_else handle (str "Anon"))) as [handle'|] eqn:Sh; [|discriminate].
  cbn [lift pbind].
  destruct (sanitizeText text) as [text'|] eqn:St; [|discriminate].
  cbn [lift pbind]. unfold sb.
  destruct (configured (SUPABASE_URL host)) as [base|]; [|discriminate].
  destruct (configured (SUPABASE_SERVICE_ROLE host)) as [role|]; [|discriminate].
  cbn [pbind try_catch first_call]. intros H. inversion H; subst c. clear H.
  destruct (sanitizeText_truthy _ Tt St) as (t & Et & ->).
  do 2 eexists.
  exists (obj [ ("story_id", story_id); ("handle", handle');
                ("body", VStr (sanitize_with BAD_WORDS t)) ]), t.
  split; [reflexivity|]. split; [exact Et|]. split; [reflexivity|]. split; [reflexivity|].
  change (get_prop (obj [ ("story_id", story_id); ("handle", handle');
                          ("body", VStr (sanitize_with BAD_WORDS t)) ]) (prop "handle"))
    with handle'.
  split.
  - intros Fh. unfold or_else in Sh. rewrite Fh in Sh.
    apply Normal_inj in Sh. now subst handle'.
  - intros a Ea Ha. unfold or_else in Sh. rewrite Ea in Sh.
    assert (Ta : truthy (VStr a) = true) by (destruct a; [congruence | reflexivity]).
    rewrite Ta in Sh. destruct (sanitizeText_truthy _ Ta Sh) as (a' & Ea' & ->).
    apply (f_equal (fun v => match v with VStr x => x | _ => a end)) in Ea'.
    cbv beta iota in Ea'. now subst a'.
Qed.

Lemma comment_row_is_sanitized_witness :
  exists url headers row,
    first_call (comment_handler sample_host
                  (obj [ ("story_id", str "s1"); ("body", str "what a Bitch") ]))
      = Some (Fetch url (js "POST") headers (Some (VArr [row]))) /\
    get_prop row (prop "body") = str "what a B*tch" /\
    get_prop row (prop "handle") = str "Anon".
Proof.
  destruct (@comment_row_is_sanitized sample_host
              (obj [ ("story_id", str "s1"); ("body", str "what a Bitch") ])
              _ eq_refl)
    as (url & headers & row & t & E & Et & Rt & _ & Rh & _).
  exists url, headers, row. split; [now rewrite <- E|]. split; [|now apply Rh].
  apply (f_equal (fun v => match v with VStr x => x | _ => [] end)) in Et.
  cbv beta iota in Et. subst t. exact Rt.
Defined.

(** X23. In the one row the profile handler sends to the store, the nickname
    is the caller's string run through the sanitizer and the client id is the
    caller's value as it came. *)
Theorem profile_row_is_sanitized (host : Host) (body : value) (c : call) :
  first_call (profile_set_handler host body) = Some c ->
  exists url headers row n,
    c = Fetch url (js "POST") headers (Some (VArr [row])) /\
    get_prop body (prop "nickname") = VStr n /\
    row = obj [ ("client_id", get_prop body (prop "client_id"));
                ("nickname", VStr (sanitize_with BAD_WORDS n)) ].
Proof.
  unfold profile_set_handler, Get.
  destruct (nullish body); [discriminate|]. cbn [lift pbind].
  destruct (truthy (get_prop body (prop "client_id"))) eqn:Tc; [|discriminate].
  destruct (truthy (get_prop body (prop "nickname"))) eqn:Tn; [|discriminate].
  cbn [negb orb].
  destruct (sanitizeText (get_prop body (prop "nickname"))) as [n'|] eqn:Sn; [|discriminate].
  cbn [lift pbind]. unfold sb.
  destruct (configured (SUPABASE_URL host)) as [base|]; [|discriminate].
  destruct (configured (SUPABASE_SERVICE_ROLE host)) as [role|]; [|discriminate].
  cbn [pbind try_catch first_call]. intros H. inversion H; subst c. clear H.
  destruct (sanitizeText_truthy _ Tn Sn) as (n & En & ->).
  do 3 eexists. exists n. split; [reflexivity|]. split; [exact En | reflexivity].
Qed.

Lemma profile_row_is_sanitized_witness :
  exists url headers,
    first_call (profile_set_handler sample_host
                  (obj [ ("client_id", str "c1"); ("nickname", str "Dick Turpin") ]))
      = Some (Fetch url (js "POST") headers
                (Some (VArr [ obj [ ("client_id", str "c1");
                                    ("nickname", str "D*ck Turpin") ] ]))).
Proof.
  destruct (@profile_row_is_sanitized sample_host
              (obj [ ("client_id", str "c1"); ("nickname", str "Dick Turpin") ])
              _ eq_refl)
    as (url & headers & row & n & E & En & ->).
  exists url, headers.
  apply (f_equal (fun v => match v with VStr x => x | _ => [] end)) in En.
  cbv beta iota in En. subst n. exact (f_equal Some E).
Defined.

(** X24. A request that lacks a field its endpoint requires is answered 400
    before anything is sent to the store: a comment without a truthy story id
    or body, a comment listing without a story id, a profile without a truthy
    client id or nickname, a profile lookup without a client id. *)
Theorem missing_fields_rejected (host : Host) (arg : value) (world : call -> answer) :
  nullish arg = false ->
  let rejected handler text :=
    run world handler = ([], Normal {| code := 400; json := obj [ ("error", VStr text) ] |}) in
  (truthy (get_prop arg (prop "story_id")) = false \/
   truthy (get_prop arg (prop "body")) = false ->
   rejected (comment_handler host arg) (js "Missing story_id or body")) /\
  (truthy (get_prop arg (prop "story_id")) = false ->
   rejected (comments_handler host arg) (js "Missing story_id")) /\
  (truthy (get_prop arg (prop "client_id")) = false \/
   truthy (get_prop arg (prop "nickname")) = false ->
   rejected (profile_set_handler host arg) (js "Missing client_id or nickname")) /\
  (truthy (get_prop arg (prop "client_id")) = false ->
   rejected (profile_get_handler host arg) (js "Missing client_id")).
Proof.
  intros Na rejected. subst rejected. cbv beta.
  assert (Or : forall a b, a = false \/ b = false -> negb a || negb b = true).
  { intros a b [-> | ->]; [reflexivity | apply orb_true_r]. }
  repeat split.
  - intros H. unfold comment_handler, comment_body, Get. rewrite Na. cbn [lift pbind].
    now rewrite (Or _ _ H).
  - intros H. unfold comments_handler, Get. rewrite Na. cbn [lift pbind]. now rewrite H.
  - intros H. unfold profile_set_handler, Get. rewrite Na. cbn [lift pbind].
    now rewrite (Or _ _ H).
  - intros H. unfold profile_get_handler, Get. rewrite Na. cbn [lift pbind]. now rewrite H.
Qed.

Lemma missing_fields_rejected_witness :
  run (upstream 200 (js "{}"))
      (comment_handler sample_host (obj [ ("story_id", str "s1"); ("handle", str "Ann") ])) =
    ([], Normal {| code := 400; json := obj [ ("error", str "Missing story_id or body") ] |}).
Proof.
  apply (proj1 (@missing_fields_rejected sample_host
                  (obj [ ("story_id", str "s1"); ("handle", str "Ann") ])
                  (upstream 200 (js "{}")) eq_refl)).
  right. reflexivity.
Defined.

(** X25. With the store configured, a profile lookup sends one GET and
    replies with the first row the store answers, and with [null] when the
    store answers no row (or a first row that is falsy). *)
Theorem profile_get_outcomes (host : Host) (query : value) (world : call -> answer)
    (base role id : jsstring) (st : N) (raw : jsstring) (rows : list value) :
  configured (SUPABASE_URL host) = Some base ->
  configured (SUPABASE_SERVICE_ROLE host) = Some role ->
  nullish query = false ->
  truthy (get_prop query (prop "client_id")) = true ->
  ToString host (get_prop query (prop "client_id")) = Normal id ->
  let request := store_call base role (js "/profiles?client_id=eq." ++ id ++ js "&select=*")
                            (js "GET") None in
  world request = answered st raw -> (200 <= st <= 299) ->
  JSON_parse host raw = Some (VArr rows) ->
  run world (profile_get_handler host query) =
    ([request],
     Normal {| code := 200;
               json := obj [ ("profile", match rows with
                                         | row :: _ => if truthy row then row else VNull
                                         | [] => VNull
                                         end) ] |}).
Proof.
  intros U R Nq Tc Tid request W O P.
  unfold profile_get_handler, Get. rewrite Nq. cbn [lift pbind]. rewrite Tc. cbn [negb].
  rewrite Tid. cbn [lift pbind]. rewrite (sb_configured host _ _ _ U R). fold request.
  cbn [pbind try_catch run]. rewrite W.
  rewrite (@sb_settled_ok host st raw (VArr rows) O P).
  destruct rows as [|row rest]; reflexivity.
Qed.

Lemma profile_get_outcomes_witness :
  exists request,
    run (upstream 200 (js "[]"))
        (profile_get_handler (parsing_host [ (js "[]", VArr []) ])
           (obj [ ("client_id", str "c1") ])) =
      ([request], Normal {| code := 200; json := obj [ ("profile", VNull) ] |}).
Proof.
  eexists.
  apply (@profile_get_outcomes (parsing_host [ (js "[]", VArr []) ])
           (obj [ ("client_id", str "c1") ]) (upstream 200 (js "[]"))
           (js "https://db.example") (js "role") (js "c1") 200 (js "[]") []);
    try reflexivity.
  split; discriminate.
Defined.

(** X26. With the store configured, a comment listing sends one GET whose
    path carries the story id as text, unescaped.  It relays whatever JSON
    the store answers under [comments], and turns an answer outside 200-299
    into a 500 whose error is "[Supabase <status>] <body>". *)
Theorem comments_handler_outcomes (host : Host) (query : value) (world : call -> answer)
    (base role id : jsstring) (st : N) (raw : jsstring) :
  configured (SUPABASE_URL host) = Some base ->
  configured (SUPABASE_SERVICE_ROLE host) = Some role ->
  nullish query = false ->
  truthy (get_prop query (prop "story_id")) = true ->
  ToString host (get_prop query (prop "story_id")) = Normal id ->
  let request :=
    store_call base role
      (js "/story_comments?story_id=eq." ++ id ++ js "&select=*&order=created_at.asc")
      (js "GET") None in
  world request = answered st raw ->
  ((200 <= st <= 299) ->
   forall rows, JSON_parse host raw = Some rows ->
     run world (comments_handler host query) =
       ([request], Normal {| code := 200; json := obj [ ("comments", rows) ] |})) /\
  ((st < 200 \/ 299 < st) ->
   run world (comments_handler host query) =
     ([request],
      Normal {| code := 500;
                json := obj [ ("error",
                               VStr (js "[Supabase " ++ digits st ++ js "] " ++ raw)) ] |})).
Proof.
  intros U R Nq Ts Tid request W.
  unfold comments_handler, Get. rewrite Nq. cbn [lift pbind]. rewrite Ts. cbn [negb].
  rewrite Tid. cbn [lift pbind]. rewrite (sb_configured host _ _ _ U R). fold request.
  cbn [pbind try_catch run]. rewrite W. split.
  - intros O rows P. now rewrite (@sb_settled_ok host st raw rows O P).
  - intros O. now rewrite (@sb_settled_error host st raw O).
Qed.

Lemma comments_handler_outcomes_witness :
  run (upstream 404 (js "gone"))
      (comments_handler sample_host (obj [ ("story_id", str "7&limit=1") ])) =
    ([store_call (js "https://db.example") (js "role")
        (js "/story_comments?story_id=eq.7&limit=1&select=*&order=created_at.asc")
        (js "GET") None],
     Normal {| code := 500; json := obj [ ("error", str "[Supabase 404] gone") ] |}).
Proof.
  apply (@comments_handler_outcomes sample_host (obj [ ("story_id", str "7&limit=1") ])
           (upstream 404 (js "gone")) (js "https://db.example") (js "role")
           (js "7&limit=1") 404 (js "gone") eq_refl eq_refl eq_refl eq_refl eq_refl eq_refl).
  right. reflexivity.
Defined.

(** ** What no request can do *)

Lemma sanitizeText_throws v e :
  sanitizeText v = Throw e -> e = TypeError_not_function "out.replace".
Proof.
  unfold sanitizeText. destruct (negb (truthy v)); [discriminate|].
  destruct v; try discriminate;
    intros H;
    exact (f_equal (fun c => match c with Throw x => x | Normal _ => e end) (eq_sym H)).
Qed.

Lemma sanitizeText_not_a_string v :
  truthy v = true -> (forall s, v <> VStr s) ->
  sanitizeText v = Throw (TypeError_not_function "out.replace").
Proof.
  intros T H. unfold sanitizeText. rewrite T. cbn [negb].
  destruct v; try reflexivity. now destruct (H s).
Qed.

(** X27. A text field that is truthy but not a string (a number, an array,
    an object) makes the sanitizer throw: the share, comment and profile
    handlers then reply 500 with the engine's message for the TypeError, and
    nothing is sent to the store. *)
Theorem text_fields_must_be_strings (host : Host) (body : value) (world : call -> answer) :
  nullish body = false ->
  let field name := get_prop body (prop name) in
  let refused handler :=
    run world handler =
      ([], Normal {| code := 500;
                     json := obj [ ("error",
                                    VStr (engine_message host
                                            (TypeError_not_function "out.replace"))) ] |}) in
  (truthy (field "title") = true -> truthy (field "content") = true ->
   (forall s, field "title" <> VStr s) -> refused (share_handler host body)) /\
  (truthy (field "story_id") = true -> truthy (field "body") = true ->
   (forall s, field "body" <> VStr s) -> refused (comment_handler host body)) /\
  (truthy (field "client_id") = true -> truthy (field "nickname") = true ->
   (forall s, field "nickname" <> VStr s) -> refused (profile_set_handler host body)).
Proof.
  intros Nb field refused. subst field refused. cbv beta. repeat split.
  - intros T1 T2 H. unfold share_handler, share_body, Get. rewrite Nb. cbn [lift pbind].
    rewrite T1, T2. cbn [negb orb]. unfold share_row.
    rewrite (@sanitizeText_not_a_string _ T1 H). reflexivity.
  - intros T1 T2 H. unfold comment_handler, comment_body, Get. rewrite Nb. cbn [lift pbind].
    rewrite T1, T2. cbn [negb orb].
    destruct (sanitizeText (or_else _ _)) as [handle'|e] eqn:Sh; cbn [lift pbind try_catch].
    + rewrite (@sanitizeText_not_a_string _ T2 H). reflexivity.
    + rewrite (@sanitizeText_throws _ _ Sh). reflexivity.
  - intros T1 T2 H. unfold profile_set_handler, Get. rewrite Nb. cbn [lift pbind].
    rewrite T1, T2. cbn [negb orb].
    rewrite (@sanitizeText_not_a_string _ T2 H). reflexivity.
Qed.

Lemma text_fields_must_be_strings_witness :
  run (upstream 200 (js "{}"))
      (share_handler sample_host (obj [ ("title", VNum 7%float); ("content", str "It rains.") ])) =
    ([], Normal {| code := 500; json := obj [ ("error", str "TypeError") ] |}).
Proof.
  apply (proj1 (@text_fields_must_be_strings sample_host
                  (obj [ ("title", VNum 7%float); ("content", str "It rains.") ])
                  (upstream 200 (js "{}")) eq_refl));
    [reflexivity | reflexivity | intros s; discriminate].
Defined.

Lemma results_pbind {A B} (P : B -> Prop) (m : prog A) (k : A -> prog B) :
  (forall a, results P (k a)) -> results P (pbind m k).
Proof.
  intros H. induction m as [a|e|c k' IH]; cbn [pbind results]; auto.
Qed.

Lemma try_catch_replies (P : reply -> Prop) (m : prog reply) (h : error -> prog reply)
    (world : call -> answer) :
  results P m -> (forall e, exists r, h e = Ret r /\ P r) ->
  exists calls r, run world (try_catch m h) = (calls, Normal r) /\ P r.
Proof.
  intros Hm Hh. induction m as [a|e|c k IH]; cbn [try_catch run].
  - now exists [], a.
  - destruct (Hh e) as (r & -> & Pr). now exists [], r.
  - destruct (IH (world c) (Hm (world c))) as (calls & r & -> & Pr).
    now exists (c :: calls), r.
Qed.

Ltac all_results :=
  repeat first
    [ apply results_pbind; intros
    | match goal with |- results _ (if ?b then _ else _) => destruct b end
    | progress cbn [results code In] ];
  auto 10.

(** X28. Whatever the request holds and whatever the store answers or fails
    to answer, each storyboard and profile handler ends with a reply, never
    with an exception that escapes it, and the reply's status is 200, 400,
    404 or 500. *)
Theorem store_handlers_always_reply (host : Host) (arg : value) (world : call -> answer) :
  Forall (fun handler =>
            exists calls r, run world handler = (calls, Normal r) /\
                            In (code r) [200; 400; 404; 500])
         [ share_handler host arg; list_handler host; react_handler host arg;
           comment_handler host arg; comments_handler host arg;
           profile_set_handler host arg; profile_get_handler host arg ].
Proof.
  assert (F : forall e, exists r,
                store_failure host e = Ret r /\ In (code r) [200; 400; 404; 500]).
  { intros e. eexists. split; [reflexivity|]. cbn. auto. }
  repeat constructor.
  - apply try_catch_replies; [|exact F]. unfold share_body. all_results.
  - apply try_catch_replies; [|exact F]. all_results.
  - apply try_catch_replies; [|exact F]. unfold react_body. all_results.
  - apply try_catch_replies; [|exact F]. unfold comment_body. all_results.
  - apply try_catch_replies; [|exact F]. all_results.
  - apply try_catch_replies; [|exact F]. all_results.
  - apply try_catch_replies; [|exact F]. all_results.
Qed.
